(** * benchsrv: HTTP handlers of the benchmark server (handlers.go)

    A shallow embedding of [handlers.go] and of the parser of the core
    behind it.  Go strings and byte slices are byte sequences and
    are modelled by [string]; Go [int]/[int64] values by [Z]; a run-time
    panic (index out of range, nil dereference) by [None]. *)

From Stdlib Require Import ZArith String Ascii List Lia Bool.
From Stdlib Require Import Floats.SpecFloat.
From stdpp Require Import base option list gmap strings pretty.

Local Open Scope string_scope.
Local Open Scope Z_scope.

(** ** Go strings: length, indexing and slicing with their bounds checks *)

Module GoString.

Definition len (s : string) : Z := Z.of_nat (String.length s).

(** [s[i]]; panics (None) when [i] is out of range. *)
Definition index (s : string) (i : Z) : option ascii :=
  if i <? 0 then None else String.get (Z.to_nat i) s.

(** [s[lo:hi]]; panics (None) unless [0 <= lo <= hi <= len(s)]. *)
Definition slice (s : string) (lo hi : Z) : option string :=
  if (0 <=? lo) && (lo <=? hi) && (hi <=? len s)
  then Some (String.substring (Z.to_nat lo) (Z.to_nat (hi - lo)) s)
  else None.

(** Does the byte [c] occur in [s]? *)
Fixpoint contains (c : ascii) (s : string) : bool :=
  match s with
  | EmptyString => false
  | String a s' => Ascii.eqb a c || contains c s'
  end.

Definition chars : string → list ascii := list_ascii_of_string.

End GoString.

Import GoString.

(** ** lastChunk (handlers.go, lines 89-99) *)

(** The loop [for i := len(path) - 1; i >= 0; i--]; the counter [n] is
    [i + 1], the number of indices still to visit. *)
Fixpoint lastChunk_loop (path : string) (n : nat) : option string :=
  match n with
  | O => Some path
  | S i =>
      c ← index path (Z.of_nat i);
      if Ascii.eqb c "/" then slice path (Z.of_nat i + 1) (len path)
      else lastChunk_loop path i
  end.

Definition lastChunk (path : string) : option string :=
  c ← index path (len path - 1);
  path ← (if Ascii.eqb c "/" then slice path 0 (len path - 1) else Some path);
  lastChunk_loop path (Z.to_nat (len path - 1 + 1)).

(** ** strconv.ParseInt(s, 10, 64)

    The Go standard library conversion used for benchmark ids, for base 10
    and bit size 64.  It returns a value together with an error; on a syntax
    error the value is 0, on a range error it is the nearest int64 bound.
    [ParseUint_loop] is the digit loop of [strconv.ParseUint]; uint64
    arithmetic wraps modulo 2^64. *)

Module strconv.

Inductive NumError := ErrSyntax | ErrRange.

Definition maxUint64 : Z := 2 ^ 64 - 1.
Definition cutoff10 : Z := maxUint64 / 10 + 1.
Definition uint64 (z : Z) : Z := z mod 2 ^ 64.
Definition int64 (z : Z) : Z := (z + 2 ^ 63) mod 2 ^ 64 - 2 ^ 63.

Definition byte (c : ascii) : Z := Z.of_N (N_of_ascii c).

Definition digit (c : ascii) : option Z :=
  if (48 <=? byte c) && (byte c <=? 57) then Some (byte c - 48) else None.

Fixpoint ParseUint_loop (s : string) (n : Z) : Z * option NumError :=
  match s with
  | EmptyString => (n, None)
  | String c s' =>
      match digit c with
      | None => (0, Some ErrSyntax)
      | Some d =>
          if n >=? cutoff10 then (maxUint64, Some ErrRange)
          else
            let n := uint64 (n * 10) in
            let n1 := uint64 (n + d) in
            if (n1 <? n) || (n1 >? maxUint64) then (maxUint64, Some ErrRange)
            else ParseUint_loop s' n1
      end
  end.

Definition ParseUint (s : string) : Z * option NumError :=
  match s with
  | EmptyString => (0, Some ErrSyntax)
  | _ => ParseUint_loop s 0
  end.

Definition ParseInt (s : string) : Z * option NumError :=
  match s with
  | EmptyString => (0, Some ErrSyntax)
  | String c0 s' =>
      let neg := Ascii.eqb c0 "-" in
      let s1 := if Ascii.eqb c0 "+" || Ascii.eqb c0 "-" then s' else s in
      match ParseUint s1 with
      | (_, Some ErrSyntax) => (0, Some ErrSyntax)
      | (un, _) =>
          let cutoff := 2 ^ 63 in
          if negb neg && (un >=? cutoff) then (cutoff - 1, Some ErrRange)
          else if neg && (un >? cutoff) then (- cutoff, Some ErrRange)
          else
            let n := int64 un in
            (if neg then int64 (- n) else n, None)
      end
  end.

(** [%d] / [fmt.Fprint] of an integer: its decimal text. *)
Definition FormatInt (z : Z) : string := pretty z.

End strconv.

(** ** bytes.TrimSpace / strings.TrimSpace

    Both slice off all leading and trailing white space "as defined by
    Unicode" ([unicode.IsSpace]): the runes U+0009..U+000D, U+0020, U+0085,
    U+00A0, U+1680, U+2000..U+200A, U+2028, U+2029, U+202F, U+205F and
    U+3000.  Runes are decoded from UTF-8, and a byte sequence that is not
    the (shortest-form) encoding of a rune decodes to U+FFFD, which is not
    white space; so a white-space rune is present at the start (end) exactly
    when the bytes start (end) with one of the encodings below. *)

Module unicode.

Import strconv.

(** [unicode.IsSpace]: the Latin-1 white space and the White_Space range
    table. *)
Definition IsSpace (r : Z) : bool :=
  if r <=? 0xFF
  then ((9 <=? r) && (r <=? 13)) || (r =? 0x20) || (r =? 0x85) || (r =? 0xA0)
  else (r =? 0x1680) || ((0x2000 <=? r) && (r <=? 0x200A))
       || (r =? 0x2028) || (r =? 0x2029) || (r =? 0x202F)
       || (r =? 0x205F) || (r =? 0x3000).

Definition chr (b : Z) : ascii := ascii_of_N (Z.to_N b).

(** [utf8.EncodeRune]; a surrogate half is encoded as U+FFFD. *)
Definition EncodeRune (r : Z) : list ascii :=
  let r := if (0xD800 <=? r) && (r <=? 0xDFFF) then 0xFFFD else r in
  if r <? 0x80 then [chr r]
  else if r <? 0x800 then [chr (0xC0 + r / 64); chr (0x80 + r mod 64)]
  else if r <? 0x10000
  then [chr (0xE0 + r / 4096); chr (0x80 + (r / 64) mod 64); chr (0x80 + r mod 64)]
  else [chr (0xF0 + r / 262144); chr (0x80 + (r / 4096) mod 64);
        chr (0x80 + (r / 64) mod 64); chr (0x80 + r mod 64)].

(** Does [f] hold on the [2 ^ bits] integers from [base] on? *)
Fixpoint forallRange (f : Z → bool) (bits : nat) (base : Z) : bool :=
  match bits with
  | O => f base
  | S b => forallRange f b base && forallRange f b (base + 2 ^ Z.of_nat b)
  end.

Definition asciiSpace (c : ascii) : bool :=
  ((9 <=? byte c) && (byte c <=? 13)) || (byte c =? 32).

(** U+0085 and U+00A0: [C2 85], [C2 A0]. *)
Definition space2 (c1 c2 : ascii) : bool :=
  (byte c1 =? 0xC2) && ((byte c2 =? 0x85) || (byte c2 =? 0xA0)).

(** U+1680 [E1 9A 80]; U+2000..U+200A [E2 80 80..8A]; U+2028, U+2029,
    U+202F [E2 80 A8/A9/AF]; U+205F [E2 81 9F]; U+3000 [E3 80 80]. *)
Definition space3 (c1 c2 c3 : ascii) : bool :=
  ((byte c1 =? 0xE1) && (byte c2 =? 0x9A) && (byte c3 =? 0x80))
  || ((byte c1 =? 0xE2) && (byte c2 =? 0x80)
      && (((0x80 <=? byte c3) && (byte c3 <=? 0x8A))
          || (byte c3 =? 0xA8) || (byte c3 =? 0xA9) || (byte c3 =? 0xAF)))
  || ((byte c1 =? 0xE2) && (byte c2 =? 0x81) && (byte c3 =? 0x9F))
  || ((byte c1 =? 0xE3) && (byte c2 =? 0x80) && (byte c3 =? 0x80)).

(** Is there a white-space rune at the front?  [fwd] tells whether the
    bytes are given in reading order or reversed (for the scan from the
    end of the input). *)
Definition spaceAhead (fwd : bool) (l : list ascii) : bool :=
  match l with
  | c1 :: t1 =>
      asciiSpace c1
      || match t1 with
         | c2 :: t2 =>
             (if fwd then space2 c1 c2 else space2 c2 c1)
             || match t2 with
                | c3 :: _ => if fwd then space3 c1 c2 c3 else space3 c3 c2 c1
                | [] => false
                end
         | [] => false
         end
  | [] => false
  end.

(** Drop white-space runes from the front until none is left. *)
Fixpoint trimAhead (fwd : bool) (l : list ascii) : list ascii :=
  match l with
  | c1 :: t1 =>
      if asciiSpace c1 then trimAhead fwd t1
      else
        match t1 with
        | c2 :: t2 =>
            if (if fwd then space2 c1 c2 else space2 c2 c1)
            then trimAhead fwd t2
            else
              match t2 with
              | c3 :: t3 =>
                  if (if fwd then space3 c1 c2 c3 else space3 c3 c2 c1)
                  then trimAhead fwd t3
                  else l
              | [] => l
              end
        | [] => l
        end
  | [] => []
  end.

Definition TrimLeft (l : list ascii) : list ascii := trimAhead true l.
Definition TrimRight (l : list ascii) : list ascii :=
  rev (trimAhead false (rev l)).

Definition TrimSpace (s : string) : string :=
  string_of_list_ascii (TrimRight (TrimLeft (list_ascii_of_string s))).

Definition hasLeadingSpace (s : string) : bool :=
  spaceAhead true (list_ascii_of_string s).
Definition hasTrailingSpace (s : string) : bool :=
  spaceAhead false (rev (list_ascii_of_string s)).

End unicode.

(** ** Errors and stored benchmarks

    A Go [error] value is either the sentinel [ErrNotFound] of the storage
    layer or any other error, of which only the message matters here. *)

Inductive error := ErrNotFound | ErrOther (msg : string).

Definition error_eqb (e1 e2 : error) : bool :=
  match e1, e2 with
  | ErrNotFound, ErrNotFound => true
  | ErrOther m1, ErrOther m2 => String.eqb m1 m2
  | _, _ => false
  end.

(** The stored run; handlers.go reads [Content] and the templates read
    [ID], [Created] and [Commit]. *)
Record Benchmark := {
  ID : Z;
  Created : Z;
  Content : string;
  Commit : string
}.

(** ** net/http: headers, form values, response writer, request *)

Module http.

Import strconv.

Definition StatusOK : Z := 200.
Definition StatusCreated : Z := 201.
Definition StatusBadRequest : Z := 400.
Definition StatusUnauthorized : Z := 401.
Definition StatusNotFound : Z := 404.
Definition StatusInternalServerError : Z := 500.

Definition isLower (c : ascii) : bool := (97 <=? byte c) && (byte c <=? 122).
Definition isUpper (c : ascii) : bool := (65 <=? byte c) && (byte c <=? 90).
Definition isDigit (c : ascii) : bool := (48 <=? byte c) && (byte c <=? 57).

(** Token bytes of RFC 7230. *)
Definition validHeaderFieldByte (c : ascii) : bool :=
  isLower c || isUpper c || isDigit c || contains c "!#$%&'*+-.^_`|~".

Definition shift (c : ascii) (d : Z) : ascii :=
  ascii_of_N (Z.to_N (byte c + d)).

Fixpoint canonicalize (upper : bool) (s : string) : string :=
  match s with
  | EmptyString => EmptyString
  | String c s' =>
      let c := if upper && isLower c then shift c (-32)
               else if negb upper && isUpper c then shift c 32
               else c in
      String c (canonicalize (Ascii.eqb c "-") s')
  end.

(** First letter and every letter after a dash in upper case, the others
    in lower case; a key with a byte that is not a token byte is left as
    it is. *)
Definition CanonicalMIMEHeaderKey (s : string) : string :=
  if forallb validHeaderFieldByte (list_ascii_of_string s)
  then canonicalize true s else s.

(** [http.Header] and [url.Values]: a map from keys to lists of values;
    [Get] is the first value or the empty string. *)
Definition first (vs : option (list string)) : string :=
  match vs with
  | Some (v :: _) => v
  | _ => ""
  end.

Definition Header_Get (h : gmap string (list string)) (key : string) : string :=
  first (h !! CanonicalMIMEHeaderKey key).

Definition Header_Set (h : gmap string (list string)) (key value : string)
  : gmap string (list string) :=
  <[CanonicalMIMEHeaderKey key := [value]]> h.

Definition Values_Get (v : gmap string (list string)) (key : string) : string :=
  first (v !! key).

(** The response as the handler builds it.  [status = None] until the
    header is written; the first write of the body sends 200. *)
Record ResponseWriter := {
  header : gmap string (list string);
  status : option Z;
  body : string
}.

Definition WriteHeader (code : Z) (w : ResponseWriter) : ResponseWriter :=
  match status w with
  | None => {| header := header w; status := Some code; body := body w |}
  | Some _ => w
  end.

Definition Write (data : string) (w : ResponseWriter) : ResponseWriter :=
  {| header := header w;
     status := Some (default StatusOK (status w));
     body := body w ++ data |}.

(** The status the client receives. *)
Definition statusCode (w : ResponseWriter) : Z := default StatusOK (status w).

(** The part of [*http.Request] the handlers read.  [ParseMultipartForm]
    is the result of [r.ParseMultipartForm(oneMB)]; [FormFile] is the
    "content" part of the form: absent, or its bytes with the error of
    reading it; [Now] is the clock reading, [time.Now()], taken while the
    request is served. *)
Record Request := {
  URL_Path : string;
  URL_Query : gmap string (list string);
  ParseMultipartForm : option error;
  Form : gmap string (list string);
  FormFile : option (string * option error);
  Now : Z
}.

End http.

Import strconv unicode http.

(** ** Collaborators

    [Store] is the storage interface the handlers are given; a call may
    change the store, so each operation returns the new store state.  The
    other collaborators are declared elsewhere in the repository or in
    libraries: [Compare], the text of the [ErrNotFound] sentinel, the
    rendering of the two templates by [html/template], and [Sprintf],
    which is [fmt.Sprintf] applied to a format alone, without operands:
    it copies the format and rewrites what a percent sign begins. *)

Class Store (S : Type) := {
  CreateBenchmark : S → string → string → (Z * option error) * S;
  FindBenchmark : S → Z → (Benchmark * option error) * S;
  ListBenchmarks : S → Z → Z → (list Benchmark * option error) * S
}.

Class Collaborators := {
  Compare : Benchmark → Benchmark → string * option error;
  ErrNotFound_text : string;
  tmpl_error : string → string;
  tmpl_listing : list Benchmark → string;
  Sprintf : string → string
}.

Definition Error `{Collaborators} (e : error) : string :=
  match e with
  | ErrNotFound => ErrNotFound_text
  | ErrOther msg => msg
  end.

(** What a handler did to its collaborators, in order, with each result. *)
Inductive Event :=
| CallCreateBenchmark (content commit : string) (id : Z) (err : option error)
| CallFindBenchmark (id : Z) (bench : Benchmark) (err : option error)
| CallListBenchmarks (before limit : Z) (err : option error)
| CallCompare (a b : Benchmark) (out : string) (err : option error).

Definition isStoreCall (e : Event) : bool :=
  match e with
  | CallCompare _ _ _ _ => false
  | _ => true
  end.

Definition failed (e : Event) : bool :=
  match e with
  | CallCreateBenchmark _ _ _ err
  | CallFindBenchmark _ _ err
  | CallListBenchmarks _ _ err
  | CallCompare _ _ _ err => bool_decide (is_Some err)
  end.

(** ** The handlers

    A handler runs against the store and the response writer and leaves a
    trace of its calls; [None] is a run-time panic, which [net/http]
    recovers by dropping the connection. *)

Section Handlers.

Context {S : Type} `{!Store S} `{!Collaborators}.

Record World := {
  store : S;
  trace : list Event;
  resp : ResponseWriter
}.

Definition Handler (A : Type) : Type := World → option (A * World).

#[local] Instance Handler_ret : MRet Handler := λ A a w, Some (a, w).
#[local] Instance Handler_bind : MBind Handler := λ A B f m w,
  match m w with
  | Some (a, w') => f a w'
  | None => None
  end.

Definition panic {A} : Handler A := λ _, None.

Definition onResponse (f : ResponseWriter → ResponseWriter) : Handler unit :=
  λ w, Some (tt, {| store := store w; trace := trace w; resp := f (resp w) |}).

Definition w_WriteHeader (code : Z) : Handler unit := onResponse (WriteHeader code).
Definition w_Write (data : string) : Handler unit := onResponse (Write data).
Definition w_Header_Set (key value : string) : Handler unit :=
  onResponse (λ w, {| header := Header_Set (header w) key value;
                      status := status w; body := body w |}).
Definition w_Header_Get (key : string) : Handler string :=
  λ w, Some (Header_Get (header (resp w)) key, w).

Definition store_CreateBenchmark (content commit : string)
  : Handler (Z * option error) :=
  λ w, let '((id, err), st) := CreateBenchmark (store w) content commit in
       Some ((id, err),
             {| store := st;
                trace := trace w ++ [CallCreateBenchmark content commit id err];
                resp := resp w |}).

Definition store_FindBenchmark (id : Z) : Handler (Benchmark * option error) :=
  λ w, let '((bench, err), st) := FindBenchmark (store w) id in
       Some ((bench, err),
             {| store := st;
                trace := trace w ++ [CallFindBenchmark id bench err];
                resp := resp w |}).

Definition store_ListBenchmarks (before limit : Z)
  : Handler (list Benchmark * option error) :=
  λ w, let '((benchmarks, err), st) := ListBenchmarks (store w) before limit in
       Some ((benchmarks, err),
             {| store := st;
                trace := trace w ++ [CallListBenchmarks before limit err];
                resp := resp w |}).

Definition call_Compare (a b : Benchmark) : Handler (string * option error) :=
  λ w, let '(cmp, err) := Compare a b in
       Some ((cmp, err),
             {| store := store w;
                trace := trace w ++ [CallCompare a b cmp err];
                resp := resp w |}).

(** handlers.go, lines 155-160; [msg] is the result of [fmt.Sprintf].
    Where the format is a constant, the callers below write the result
    out, with the operands in the place of its verbs ([%s], [%d]); where
    it is not (line 84), they pass the format through [Sprintf]. *)
Definition httpFailf (code : Z) (msg : string) : Handler unit :=
  w_Header_Set "content-type" "text/html;charset=utf-8";;
  w_WriteHeader code;;
  w_Write (tmpl_error msg).

(** handlers.go, lines 62-68. *)
Definition signed (sig content secret : string) : bool := true.

(** handlers.go, lines 15-60. *)
Definition uploadHandler (secret : string) (r : Request) : Handler unit :=
  match ParseMultipartForm r with
  | Some err => httpFailf StatusBadRequest ("parse: " ++ Error err)
  | None =>
      match FormFile r with
      | None => panic
      | Some (_, Some err) =>
          httpFailf StatusBadRequest ("read content: " ++ Error err)
      | Some (content, None) =>
          let content := TrimSpace content in
          if len content =? 0
          then httpFailf StatusBadRequest "content is required"
          else
            let commit := TrimSpace (Values_Get (Form r) "commit") in
            if String.eqb commit ""
            then httpFailf StatusBadRequest "commit is required"
            else
              sig ← w_Header_Get "signature";
              if negb (signed sig content secret)
              then w_WriteHeader StatusUnauthorized
              else if len content <? 10
              then w_WriteHeader StatusBadRequest
              else
                '(benchID, err) ← store_CreateBenchmark content commit;
                match err with
                | Some err =>
                    httpFailf StatusInternalServerError
                              ("cannot upload: " ++ Error err)
                | None =>
                    w_WriteHeader StatusCreated;;
                    w_Write (FormatInt benchID ++ String "010" "")
                end
      end
  end.

(** handlers.go, lines 70-87. *)
Definition showBenchmark (r : Request) : Handler unit :=
  match lastChunk (URL_Path r) with
  | None => panic
  | Some chunk =>
      let '(benchID, _) := ParseInt chunk in
      if benchID =? 0
      then httpFailf StatusNotFound "benchmark not found"
      else
        '(bench, err) ← store_FindBenchmark benchID;
        match err with
        | None => w_Write (Content bench)
        | Some ErrNotFound => httpFailf StatusNotFound "benchmark not found"
        | Some err => httpFailf StatusInternalServerError (Sprintf (Error err))
        end
  end.

(** handlers.go, lines 101-110. *)
Definition listHandler (r : Request) : Handler unit :=
  '(benchmarks, err) ← store_ListBenchmarks (Now r) 100;
  match err with
  | Some err =>
      httpFailf StatusInternalServerError
                ("cannot list benchmarks: " ++ Error err)
  | None => w_Write (tmpl_listing benchmarks)
  end.

(** The status of a failed lookup, lines 126-129 and 137-140. *)
Definition lookupFailureCode (err : error) : Z :=
  let code := StatusInternalServerError in
  if error_eqb err ErrNotFound then StatusNotFound else code.

(** handlers.go, lines 112-153. *)
Definition compareHandler (r : Request) : Handler unit :=
  let query := URL_Query r in
  if String.eqb (Values_Get query "a") "" || String.eqb (Values_Get query "b") ""
  then
    httpFailf StatusBadRequest
              ("Missing benchmarks IDs. Usage " ++ URL_Path r ++ "?a=<ID>&b=<ID>")
  else
    let '(aID, _) := ParseInt (Values_Get query "a") in
    '(a, err) ← store_FindBenchmark aID;
    match err with
    | Some err =>
        httpFailf (lookupFailureCode err)
                  ("cannot find benchmark " ++ FormatInt aID ++ ": " ++ Error err)
    | None =>
        let '(bID, _) := ParseInt (Values_Get query "b") in
        '(b, err) ← store_FindBenchmark bID;
        match err with
        | Some err =>
            httpFailf (lookupFailureCode err)
                      ("cannot find benchmark " ++ FormatInt bID ++ ": " ++ Error err)
        | None =>
            '(cmp, err) ← call_Compare a b;
            match err with
            | Some err =>
                httpFailf StatusInternalServerError
                          ("cannot compare: " ++ Error err)
            | None => w_Write cmp
            end
        end
    end.

(** The state a request is served in: the store as it is, a response
    writer with whatever headers were set before the handler runs, and
    an empty trace. *)
Definition serve (st : S) (hdr : gmap string (list string)) : World :=
  {| store := st; trace := [];
     resp := {| header := hdr; status := None; body := "" |} |}.

Definition storeCalls (w : World) : list Event :=
  List.filter isStoreCall (trace w).

(** What the client and the collaborators observe of a served request. *)
Definition outcome (o : option (unit * World))
  : option (S * list Event * option Z * string) :=
  match o with
  | Some (_, w) => Some (store w, trace w, status (resp w), body (resp w))
  | None => None
  end.

End Handlers.

(** The final path segment "does not parse as a decimal 64-bit integer, or
    parses to zero". *)
Definition notAnIdOrZero (chunk : string) : Prop :=
  (ParseInt chunk).2 ≠ None ∨ (ParseInt chunk).1 = 0.

(** No call follows a failed call. *)
Definition stopsAtFailure (evs : list Event) : Prop :=
  ∀ pre ev post, evs = (pre ++ ev :: post)%list → failed ev = true → post = [].

(** A string free of white space at both ends. *)
Definition trimmed (s : string) : Prop :=
  hasLeadingSpace s = false ∧ hasTrailingSpace s = false.

Arguments World : clear implicits.
Arguments Handler : clear implicits.

(** ** An in-memory store and fixed collaborators, to run the handlers *)

Definition noBenchmark : Benchmark :=
  {| ID := 0; Created := 0; Content := ""; Commit := "" |}.

#[export] Instance memStore : Store (list Benchmark) := {
  CreateBenchmark st content commit :=
    let id := Z.of_nat (length st) + 1 in
    ((id, None),
     (st ++ [{| ID := id; Created := 0; Content := content; Commit := commit |}])%list);
  FindBenchmark st id :=
    match List.find (λ b, ID b =? id) st with
    | Some b => ((b, None), st)
    | None => ((noBenchmark, Some ErrNotFound), st)
    end;
  ListBenchmarks st before limit :=
    ((firstn (Z.to_nat limit) (List.filter (λ b, Created b <? before) st), None), st)
}.

(** A store whose backend is down: every operation fails. *)
Inductive downStore := Down.

#[export] Instance brokenStore : Store downStore := {
  CreateBenchmark st _ _ := ((0, Some (ErrOther "connection refused")), st);
  FindBenchmark st _ := ((noBenchmark, Some (ErrOther "connection refused")), st);
  ListBenchmarks st _ _ := (([], Some (ErrOther "connection refused")), st)
}.

(** Fixed collaborators.  The error texts of the two stores above hold
    no percent sign, and [fmt.Sprintf] copies such a format as it is. *)
Definition plainCollaborators : Collaborators := {|
  Compare a b :=
    if String.eqb (Content a) "" then ("", Some (ErrOther "nothing to compare"))
    else (Content a ++ " vs " ++ Content b, None);
  ErrNotFound_text := "not found";
  tmpl_error msg := "<div class=error>" ++ msg ++ "</div>";
  tmpl_listing benchmarks := FormatInt (Z.of_nat (length benchmarks));
  Sprintf format := format
|}.

Definition GET (path : string) (query : list (string * list string)) : Request :=
  {| URL_Path := path; URL_Query := list_to_map query;
     ParseMultipartForm := Some (ErrOther "request Content-Type isn't multipart/form-data");
     Form := list_to_map query; FormFile := None; Now := 0 |}.

Definition POST (path : string) (form : list (string * list string))
  (file : option (string * option error)) : Request :=
  {| URL_Path := path; URL_Query := ∅; ParseMultipartForm := None;
     Form := list_to_map form; FormFile := file; Now := 0 |}.

(** ** The parser of the core *)

Module core.

Local Open Scope nat_scope.

Definition LF : ascii := "010"%char.

(** Modelled from the spec: the input "is treated as a sequence of
    lines" (section 4.1); the splitting routine is not in handlers.go.
    Lines end at a line feed. *)
Fixpoint lines (rawText : string) : list string :=
  match rawText with
  | EmptyString => [EmptyString]
  | String c rest =>
      if Ascii.eqb c LF then EmptyString :: lines rest
      else match lines rest with
           | l :: ls => String c l :: ls
           | [] => [String c EmptyString]
           end
  end.

(** Modelled from the spec: "fields separated by runs of whitespace"
    (section 6.1). *)
Definition tokens (line : string) : list string := String.words line.

Section Parser.

(** Modelled from the spec: a numeric token is "parsed as a
    floating-point number" (section 4.1); the spec fixes neither the
    number type's grammar nor its representation, so both are
    parameters of the parser. *)
Context {num : Type} (parseNum : string → option num).

(** Modelled from the spec: Measurement of section 3, the data model
    is not declared in handlers.go. *)
Record Measurement := {
  name : string;
  metrics : gmap string num
}.

(** Modelled from the spec: ParseError of section 7, "no usable
    measurements in a blob"; the error type is not in handlers.go. *)
Inductive ParseError := mkParseError (reason : string).

(** Modelled from the spec: "Remaining tokens: consumed in consecutive
    pairs (numericValue, unitLabel)"; a value that fails to parse skips
    that pair only; for a duplicate key the last value wins.  The
    metric extraction is not in handlers.go. *)
Fixpoint pairs (toks : list string) (acc : gmap string num) : gmap string num :=
  match toks with
  | value :: unit :: rest =>
      pairs rest (match parseNum value with
                  | Some x => <[unit := x]> acc
                  | None => acc
                  end)
  | _ => acc
  end.

(** Modelled from the spec: the candidate-line rule and tokenization of
    section 4.1 (token 0 the name, token 1 the iteration count, which
    is not retained, then the pairs); a candidate line that yields no
    metric is skipped, since a measurement has at least one metric.
    The line parser is not in handlers.go. *)
Definition parseLine (line : string) : option Measurement :=
  match tokens line with
  | tok0 :: rest =>
      if String.prefix "Benchmark" tok0 then
        let ms := pairs (tail rest) ∅ in
        if decide (ms = ∅) then None
        else Some {| name := tok0; metrics := ms |}
      else None
  | [] => None
  end.

(** Modelled from the spec: the measurements collected by "scanning
    the whole input" (section 4.1), in input order; the scan is not in
    handlers.go. *)
Definition collect (rawText : string) : list Measurement :=
  omap parseLine (lines rawText).

(** Modelled from the spec: BenchmarkRun of section 3, a "mapping from
    benchmark name to Measurement (last occurrence wins if a name
    repeats)"; the data model is not declared in handlers.go. *)
Definition toRun (ms : list Measurement) : gmap string Measurement :=
  foldl (λ run m, <[name m := m]> run) ∅ ms.

(** Modelled from the spec: [parse] of section 4.1, which "fails with
    ParseError when the input yields zero valid measurements"; the
    parser is not in handlers.go. *)
Definition parse (rawText : string) : ParseError + gmap string Measurement :=
  let run := toRun (collect rawText) in
  if decide (run = ∅) then inl (mkParseError "no benchmark measurements found")
  else inr run.

(** Modelled from the spec: a measurement line in the format of
    section 6.1, [BenchmarkName[-P] <iterations> <value1> <unit1> ...],
    of which only the first value is asked to be numeric; the format
    is not stated in handlers.go. *)
Definition wellFormedLine (line : string) : Prop :=
  ∃ tok0 iterations value unit rest,
    tokens line = tok0 :: iterations :: value :: unit :: rest
    ∧ String.prefix "Benchmark" tok0 = true
    ∧ is_Some (parseNum value).

(** Modelled from the spec: "a candidate measurement line if its first
    whitespace-delimited token starts with the case-sensitive prefix
    Benchmark" (section 4.1); not in handlers.go. *)
Definition candidateLine (line : string) : Prop :=
  ∃ tok0 rest, tokens line = tok0 :: rest ∧ String.prefix "Benchmark" tok0 = true.

End Parser.

Arguments Measurement : clear implicits.
Arguments ParseError : clear implicits.

(** Unsigned decimal integers as binary64 values: one instance of the
    number parser, enough to run the parser on the examples of the
    specification. *)
Definition prec : Z := 53.
Definition emax : Z := 1024.

(** The binary64 value nearest to an integer. *)
Definition ofZ (z : Z) : spec_float := binary_normalize prec emax z 0 false.

Definition parseDecimal (tok : string) : option spec_float :=
  match tok with
  | EmptyString => None
  | _ =>
      if forallb http.isDigit (list_ascii_of_string tok)
      then Some (ofZ (fold_left (λ n c, (n * 10 + (strconv.byte c - 48))%Z)
                                (list_ascii_of_string tok) 0%Z))
      else None
  end.

(** The run with the given measurements, to write runs down. *)
Definition run (ms : list (string * list (string * spec_float)))
  : gmap string (Measurement spec_float) :=
  list_to_map ((λ '(nm, kvs), (nm, {| name := nm; metrics := list_to_map kvs |})) <$> ms).

End core.

(** ** Sample data *)

Definition fooRun : Benchmark :=
  {| ID := 1; Created := 10; Content := "BenchmarkFoo-1 100 10 ns/op"; Commit := "c0ffee" |}.
Definition barRun : Benchmark :=
  {| ID := 2; Created := 20; Content := "BenchmarkFoo-1 100 12 ns/op"; Commit := "decade" |}.

Definition twoRuns : list Benchmark := [fooRun; barRun].

Definition compareOneTwo : Request := GET "/compare/" [("a", ["1"]); ("b", ["2"])].
Definition compareOneSeven : Request := GET "/compare/" [("a", ["1"]); ("b", ["7"])].

Definition uploadFoo : Request :=
  POST "/upload" [("commit", [" c0ffee "])]
       (Some (String core.LF "BenchmarkFoo-1 100 10 ns/op" ++ String core.LF "", None)).
Definition uploadDummy : Request :=
  POST "/upload" [("commit", ["c0ffee"])] (Some ("  dummy  ", None)).

Definition sampleOutput : string :=
  "noise line" ++ String core.LF
    ("BenchmarkFoo-1 100 5 ns/op" ++ String core.LF ("more noise" ++ String core.LF "")).

(** ** Requests and events, for the further properties *)

(** The upload [r] with its content and its commit already trimmed. *)
Definition trimmedUpload (r : Request) : Request :=
  {| URL_Path := URL_Path r;
     URL_Query := URL_Query r;
     ParseMultipartForm := ParseMultipartForm r;
     Form := <["commit" := [TrimSpace (Values_Get (Form r) "commit")]]> (Form r);
     FormFile := match FormFile r with
                 | Some (content, err) => Some (TrimSpace content, err)
                 | None => None
                 end;
     Now := Now r |}.

Definition isCreateCall (e : Event) : bool :=
  match e with
  | CallCreateBenchmark _ _ _ _ => true
  | _ => false
  end.

(** The headers of an error page: what was set before, with the content
    type of httpFailf. *)
Definition errorPageHeader (hdr : gmap string (list string))
  : gmap string (list string) :=
  Header_Set hdr "content-type" "text/html;charset=utf-8".

(** * Properties *)

(** ** Strings as lists of bytes *)

Section StringFacts.

Local Open Scope nat_scope.

Lemma chars_inj (s1 s2 : string) : chars s1 = chars s2 → s1 = s2.
Proof.
  intros E. rewrite <- (string_of_list_ascii_of_string s1),
    <- (string_of_list_ascii_of_string s2). unfold chars in E. by rewrite E.
Qed.

Lemma chars_app (s1 s2 : string) : chars (s1 ++ s2) = (chars s1 ++ chars s2)%list.
Proof. induction s1 as [|c s1 IH]; simpl; [done | by rewrite IH]. Qed.

Lemma chars_length (s : string) : length (chars s) = String.length s.
Proof. induction s as [|c s IH]; simpl; [done | by rewrite IH]. Qed.

Lemma chars_get (s : string) (n : nat) : String.get n s = chars s !! n.
Proof.
  revert n. induction s as [|c s IH]; intros [|n]; simpl; auto.
Qed.

Lemma chars_substring (s : string) (n m : nat) :
  chars (String.substring n m s) = take m (drop n (chars s)).
Proof.
  revert n m. induction s as [|c s IH]; intros [|n] [|m]; simpl;
    rewrite ?IH; done.
Qed.

Lemma contains_chars (c : ascii) (s : string) :
  contains c s = false ↔ c ∉ chars s.
Proof.
  induction s as [|a s IH]; simpl.
  - split; [intros _; apply not_elem_of_nil | done].
  - rewrite not_elem_of_cons, orb_false_iff, IH, Ascii.eqb_neq.
    intuition congruence.
Qed.

End StringFacts.

(** ** lastChunk *)

Section LastChunk.

Local Open Scope nat_scope.

Lemma index_in_range (s : string) (i : nat) :
  i < String.length s → ∃ c, index s (Z.of_nat i) = Some c ∧ chars s !! i = Some c.
Proof.
  intros Hi. unfold index.
  destruct (Z.ltb_spec (Z.of_nat i) 0) as [?|_]; [lia|].
  rewrite Nat2Z.id, chars_get.
  rewrite <- chars_length in Hi. apply lookup_lt_is_Some in Hi as [c Hc].
  eauto.
Qed.

Lemma slice_suffix (s : string) (i : nat) :
  i ≤ String.length s →
  ∃ t, slice s (Z.of_nat i) (len s) = Some t ∧ chars t = drop i (chars s).
Proof.
  intros Hi. unfold slice, len.
  assert ((0 <=? Z.of_nat i)%Z && (Z.of_nat i <=? Z.of_nat (String.length s))%Z
          && (Z.of_nat (String.length s) <=? Z.of_nat (String.length s))%Z = true) as ->.
  { rewrite !andb_true_iff, !Z.leb_le. lia. }
  eexists; split; [done|].
  rewrite chars_substring, Nat2Z.id, take_ge; [done|].
  rewrite length_drop, chars_length. lia.
Qed.

Lemma slice_prefix (s : string) (n : nat) :
  n ≤ String.length s →
  ∃ t, slice s 0 (Z.of_nat n) = Some t ∧ chars t = take n (chars s).
Proof.
  intros Hn. unfold slice, len.
  assert ((0 <=? 0)%Z && (0 <=? Z.of_nat n)%Z
          && (Z.of_nat n <=? Z.of_nat (String.length s))%Z = true) as ->.
  { rewrite !andb_true_iff, !Z.leb_le. lia. }
  eexists; split; [done|].
  by rewrite chars_substring, Z.sub_0_r, Nat2Z.id.
Qed.

(** The loop, started at index [n - 1] when no slash lies at an index
    from [n] on, returns what follows the last slash. *)
Lemma lastChunk_loop_spec (path : string) (n : nat) :
  n ≤ String.length path →
  (∀ j, n ≤ j → chars path !! j ≠ Some "/"%char) →
  ∃ chunk,
    lastChunk_loop path n = Some chunk
    ∧ contains "/" chunk = false
    ∧ ((contains "/" path = false ∧ chunk = path)
       ∨ ∃ pre, path = pre ++ "/" ++ chunk).
Proof.
  induction n as [|i IH]; intros Hn Hfree; simpl.
  - exists path. assert (contains "/" path = false) as Hc.
    { apply contains_chars. intros [j Hj]%list_elem_of_lookup.
      by apply (Hfree j); [lia|]. }
    auto.
  - destruct (index_in_range path i) as (c & -> & Hc); [lia|]. simpl.
    destruct (Ascii.eqb_spec c "/") as [->|Hne].
    + destruct (slice_suffix path (S i)) as (chunk & Hs & Hchunk); [lia|].
      rewrite Nat2Z.inj_succ, <- Z.add_1_r in Hs. rewrite Hs.
      exists chunk. split; [done|]. split.
      * apply contains_chars. rewrite Hchunk.
        intros [j Hj]%list_elem_of_lookup. rewrite lookup_drop in Hj.
        by apply (Hfree (S i + j)); [lia|].
      * right. destruct (slice_prefix path i) as (pre & _ & Hpre); [lia|].
        exists pre. apply chars_inj.
        rewrite !chars_app, Hpre, Hchunk. simpl.
        by rewrite take_drop_middle.
    + apply IH; [lia|]. intros j Hj.
      destruct (decide (j = i)) as [->|]; [congruence|]. apply Hfree. lia.
Qed.

Lemma lastChunk_empty : lastChunk "" = None.
Proof. reflexivity. Qed.

Lemma last_char_app (p : string) (c : ascii) :
  chars (p ++ String c "") !! (String.length (p ++ String c "") - 1) = Some c.
Proof.
  rewrite <- chars_length, chars_app, length_app. simpl.
  rewrite lookup_app_r by lia.
  by replace (length (chars p) + 1 - 1 - length (chars p)) with 0 by lia.
Qed.

(** C9: on a non-empty path every index and slice of lastChunk is in
    bounds, so it returns; the result is what follows the last slash of
    the path without one trailing slash (the whole of it when it has no
    slash), and holds no slash.  On the empty path the first index is out
    of range: non-emptiness is a precondition. *)
Theorem lastChunk_spec (path : string) :
  (path = "" → lastChunk path = None)
  ∧ (path ≠ "" →
     ∃ chunk stem,
       lastChunk path = Some chunk
       ∧ (path = stem ++ "/" ∨ (stem = path ∧ ∀ p, path ≠ p ++ "/"))
       ∧ ((contains "/" stem = false ∧ chunk = stem)
          ∨ ∃ pre, stem = pre ++ "/" ++ chunk)
       ∧ contains "/" chunk = false).
Proof.
  split; [by intros ->|]. intros Hne.
  assert (0 < String.length path) as Hlen by (destruct path; simpl; [done|lia]).
  unfold lastChunk.
  destruct (index_in_range path (String.length path - 1)) as (c & Hi & Hc); [lia|].
  replace (Z.of_nat (String.length path - 1)) with (len path - 1)%Z in Hi
    by (unfold len; lia).
  rewrite Hi. simpl.
  destruct (Ascii.eqb_spec c "/") as [->|Hc'].
  - destruct (slice_prefix path (String.length path - 1))
      as (stem & Hs & Ht); [lia|].
    replace (Z.of_nat (String.length path - 1)) with (len path - 1)%Z in Hs
      by (unfold len; lia).
    rewrite Hs. simpl.
    replace (Z.to_nat (len stem - 1 + 1)) with (String.length stem)
      by (unfold len; lia).
    destruct (lastChunk_loop_spec stem (String.length stem))
      as (chunk & Hl & Hfree & Hsuf); [lia| |].
    { intros j Hj. rewrite <- chars_length in Hj.
      by rewrite lookup_ge_None_2. }
    exists chunk, stem. repeat split; try done.
    left. apply chars_inj. rewrite chars_app, Ht. simpl.
    rewrite <- (take_drop_middle _ _ _ Hc) at 1. f_equal. f_equal.
    rewrite drop_ge; [done|]. rewrite chars_length. lia.
  - simpl.
    replace (Z.to_nat (len path - 1 + 1)) with (String.length path)
      by (unfold len; lia).
    destruct (lastChunk_loop_spec path (String.length path))
      as (chunk & Hl & Hfree & Hsuf); [lia| |].
    { intros j Hj. rewrite <- chars_length in Hj.
      by rewrite lookup_ge_None_2. }
    exists chunk, path. repeat split; try done.
    right. split; [done|]. intros p Hp.
    rewrite Hp, last_char_app in Hc. congruence.
Qed.

Lemma lastChunk_spec_witness :
  lastChunk "" = None
  ∧ ∃ chunk stem,
      lastChunk "/benchmarks/42/" = Some chunk
      ∧ ("/benchmarks/42/" = stem ++ "/"
         ∨ (stem = "/benchmarks/42/" ∧ ∀ p, "/benchmarks/42/" ≠ p ++ "/"))
      ∧ ((contains "/" stem = false ∧ chunk = stem)
         ∨ ∃ pre, stem = pre ++ "/" ++ chunk)
      ∧ contains "/" chunk = false.
Proof.
  split.
  - by apply (lastChunk_spec "").
  - by apply (lastChunk_spec "/benchmarks/42/").
Defined.

End LastChunk.

(** ** lastChunk on joined paths *)

Section LastChunkJoin.

Local Open Scope nat_scope.

Lemma after_last_unique {A} (x : A) (l1 l2 c1 c2 : list A) :
  (l1 ++ x :: c1 = l2 ++ x :: c2)%list → x ∉ c1 → x ∉ c2 → c1 = c2.
Proof.
  revert l2. induction l1 as [|a l1 IH]; intros [|b l2] E H1 H2; simplify_eq/=.
  - done.
  - destruct H1. apply elem_of_app. right. left.
  - destruct H2. apply elem_of_app. right. left.
  - by eapply IH.
Qed.

Lemma string_app_length (s1 s2 : string) :
  String.length (s1 ++ s2) = String.length s1 + String.length s2.
Proof. by rewrite <- !chars_length, chars_app, length_app. Qed.

Lemma string_app_assoc (s1 s2 s3 : string) : (s1 ++ s2) ++ s3 = s1 ++ (s2 ++ s3).
Proof. apply chars_inj. by rewrite !chars_app, app_assoc. Qed.

(** The loop run over a whole slash-free string returns it; run over
    [pre/chunk] with a slash-free [chunk] it returns [chunk]. *)
Lemma lastChunk_loop_join (pre chunk : string) :
  contains "/" chunk = false →
  lastChunk_loop (pre ++ "/" ++ chunk) (String.length (pre ++ "/" ++ chunk))
  = Some chunk.
Proof.
  intros Hfree.
  destruct (lastChunk_loop_spec (pre ++ "/" ++ chunk)
              (String.length (pre ++ "/" ++ chunk)))
    as (c & -> & Hc & [[Hno _]|[pre' E]]); [lia| | |].
  - intros j Hj. rewrite <- chars_length in Hj. by rewrite lookup_ge_None_2.
  - apply contains_chars in Hno. destruct Hno.
    rewrite !chars_app. simpl. apply elem_of_app. right. left.
  - f_equal. apply chars_inj. apply (f_equal chars) in E.
    rewrite !chars_app in E. simpl in E. symmetry.
    eapply after_last_unique; [done|by apply contains_chars..].
Qed.

Lemma lastChunk_loop_plain (chunk : string) :
  contains "/" chunk = false →
  lastChunk_loop chunk (String.length chunk) = Some chunk.
Proof.
  intros Hfree.
  destruct (lastChunk_loop_spec chunk (String.length chunk))
    as (c & -> & Hc & [[_ ->]|[pre' E]]); [lia| |done|].
  - intros j Hj. rewrite <- chars_length in Hj. by rewrite lookup_ge_None_2.
  - apply contains_chars in Hfree. destruct Hfree. rewrite E, !chars_app. simpl.
    apply elem_of_app. right. left.
Qed.

(** With one slash at the end, lastChunk scans what is before it. *)
Lemma lastChunk_trailing_slash (stem : string) :
  lastChunk (stem ++ "/") = lastChunk_loop stem (String.length stem).
Proof.
  unfold lastChunk.
  assert (String.length (stem ++ "/") = S (String.length stem)) as Hlen
    by (rewrite string_app_length; simpl; lia).
  destruct (index_in_range (stem ++ "/") (String.length stem)) as (c & Hi & Hc); [lia|].
  replace (len (stem ++ "/") - 1)%Z with (Z.of_nat (String.length stem))
    by (unfold len; lia).
  rewrite Hi. simpl.
  rewrite chars_app, lookup_app_r, chars_length, Nat.sub_diag in Hc
    by (rewrite chars_length; lia).
  simpl in Hc. injection Hc as <-. simpl.
  destruct (slice_prefix (stem ++ "/") (String.length stem)) as (t & -> & Ht); [lia|].
  assert (t = stem) as ->.
  { apply chars_inj. rewrite Ht, chars_app, take_app_length'; [done|].
    by rewrite chars_length. }
  simpl. f_equal. unfold len. lia.
Qed.

(** Without a slash at the end, lastChunk scans the whole path. *)
Lemma lastChunk_no_trailing_slash (path : string) :
  path ≠ "" → (∀ p, path ≠ p ++ "/") →
  lastChunk path = lastChunk_loop path (String.length path).
Proof.
  intros Hne Hend. unfold lastChunk.
  assert (0 < String.length path) as Hlen by (destruct path; simpl; [done|lia]).
  destruct (index_in_range path (String.length path - 1)) as (c & Hi & Hc); [lia|].
  replace (Z.of_nat (String.length path - 1)) with (len path - 1)%Z in Hi
    by (unfold len; lia).
  rewrite Hi. simpl.
  destruct (Ascii.eqb_spec c "/") as [->|_].
  - destruct (Hend (string_of_list_ascii (take (String.length path - 1) (chars path)))).
    apply chars_inj. rewrite chars_app. unfold chars at 2.
    rewrite list_ascii_of_string_of_list_ascii. simpl.
    rewrite <- (take_drop_middle _ _ _ Hc) at 1. f_equal. f_equal.
    rewrite drop_ge; [done|]. rewrite chars_length. lia.
  - simpl. f_equal. unfold len. lia.
Qed.

Lemma slash_free_end (pre chunk : string) :
  chunk ≠ "" → contains "/" chunk = false → ∀ p, pre ++ chunk ≠ p ++ "/".
Proof.
  intros Hne Hfree p E. apply contains_chars in Hfree. destruct Hfree.
  apply (f_equal chars) in E. rewrite !chars_app in E. simpl in E.
  assert (chars chunk ≠ []) as Hc.
  { intros Hnil. destruct Hne. apply chars_inj. by rewrite Hnil. }
  destruct (chars chunk) as [|c0 cs _] using rev_ind; [done|].
  rewrite app_assoc in E. apply app_inj_tail in E as [_ ->].
  apply elem_of_app. right. left.
Qed.

(** A slash-free, non-empty chunk after a slash ends the path. *)
Lemma lastChunk_join_plain (pre chunk : string) :
  chunk ≠ "" → contains "/" chunk = false →
  lastChunk (pre ++ "/" ++ chunk) = Some chunk.
Proof.
  intros Hne Hfree. rewrite lastChunk_no_trailing_slash.
  - by apply lastChunk_loop_join.
  - by destruct pre.
  - intros p. pose proof (slash_free_end (pre ++ "/") chunk Hne Hfree p) as Hp.
    by rewrite string_app_assoc in Hp.
Qed.

Lemma lastChunk_join_slash (pre chunk : string) :
  contains "/" chunk = false →
  lastChunk (pre ++ "/" ++ chunk ++ "/") = Some chunk.
Proof.
  intros Hfree.
  replace (pre ++ "/" ++ chunk ++ "/") with ((pre ++ "/" ++ chunk) ++ "/")
    by (by rewrite !string_app_assoc).
  rewrite lastChunk_trailing_slash. by apply lastChunk_loop_join.
Qed.

(** X1: a slash-free, non-empty segment joined to any prefix by a slash is
    what lastChunk returns, with or without one more slash at the end; and
    a slash-free non-empty path is returned whole. *)
Theorem lastChunk_of_joined_path (pre chunk : string) :
  chunk ≠ "" → contains "/" chunk = false →
  lastChunk (pre ++ "/" ++ chunk) = Some chunk
  ∧ lastChunk (pre ++ "/" ++ chunk ++ "/") = Some chunk
  ∧ lastChunk chunk = Some chunk
  ∧ lastChunk (chunk ++ "/") = Some chunk.
Proof.
  intros Hne Hfree.
  split; [by apply lastChunk_join_plain|].
  split; [by apply lastChunk_join_slash|].
  split.
  - rewrite lastChunk_no_trailing_slash; [by apply lastChunk_loop_plain|done|].
    by apply (slash_free_end "").
  - rewrite lastChunk_trailing_slash. by apply lastChunk_loop_plain.
Qed.

(** One slash at the end of a path that does not already end in a slash
    changes nothing. *)
Lemma lastChunk_ignores_one_slash (path : string) :
  path ≠ "" → (∀ p, path ≠ p ++ "/") → lastChunk (path ++ "/") = lastChunk path.
Proof.
  intros Hne Hend.
  by rewrite lastChunk_trailing_slash, lastChunk_no_trailing_slash.
Qed.

(** lastChunk returns on every non-empty path. *)
Lemma lastChunk_returns (path : string) :
  path ≠ "" → ∃ chunk, lastChunk path = Some chunk.
Proof.
  intros Hne.
  assert (∀ s, ∃ chunk, lastChunk_loop s (String.length s) = Some chunk) as Hloop.
  { intros s. destruct (lastChunk_loop_spec s (String.length s))
      as (c & Hc & _); [lia| |eauto].
    intros j Hj. rewrite <- chars_length in Hj. by rewrite lookup_ge_None_2. }
  destruct (chars path) as [|c l _] eqn:E using rev_ind.
  { destruct Hne. by apply chars_inj. }
  destruct (Ascii.eqb_spec c "/") as [->|Hc].
  - assert (path = string_of_list_ascii l ++ "/") as ->.
    { apply chars_inj. rewrite E, chars_app. unfold chars at 1.
      by rewrite list_ascii_of_string_of_list_ascii. }
    rewrite lastChunk_trailing_slash. apply Hloop.
  - rewrite lastChunk_no_trailing_slash; [apply Hloop|done|].
    intros p Hp. apply (f_equal chars) in Hp. rewrite E, chars_app in Hp.
    simpl in Hp. by apply app_inj_tail in Hp as [_ ->].
Qed.

(** Two slashes at the end leave an empty last chunk, and so does the
    path that is one slash. *)
Lemma lastChunk_double_slash (pre : string) :
  lastChunk (pre ++ "//") = Some "" ∧ lastChunk "/" = Some "".
Proof.
  split; [|done].
  replace (pre ++ "//") with ((pre ++ "/") ++ "/") by (by rewrite string_app_assoc).
  rewrite lastChunk_trailing_slash. by apply (lastChunk_loop_join pre "").
Qed.

End LastChunkJoin.

(** ** TrimSpace *)

Section TrimFacts.

Local Open Scope nat_scope.

Lemma forallRange_spec (f : Z → bool) (bits : nat) (base x : Z) :
  forallRange f bits base = true →
  (base ≤ x < base + 2 ^ Z.of_nat bits)%Z → f x = true.
Proof.
  revert base. induction bits as [|b IH]; intros base; simpl forallRange.
  - intros Hf Hx. change (2 ^ Z.of_nat 0)%Z with 1%Z in Hx.
    by replace x with base by lia.
  - rewrite andb_true_iff. intros [H1 H2] Hx.
    rewrite Nat2Z.inj_succ, Z.pow_succ_r in Hx by lia.
    destruct (Z.lt_ge_cases x (base + 2 ^ Z.of_nat b)).
    + apply (IH base); [done|lia].
    + apply (IH (base + 2 ^ Z.of_nat b)%Z); [done|lia].
Qed.

(** The byte patterns of [spaceAhead] are the UTF-8 encodings of the
    runes of [IsSpace], read from the front and from the back.  (The
    runes from U+10000 on are not white space, and their encodings start
    with a byte from F0 on, which starts no pattern.) *)
Lemma space_runes_encoded (r : Z) :
  (0 ≤ r < 0x10000)%Z →
  spaceAhead true (EncodeRune r) = IsSpace r
  ∧ spaceAhead false (rev (EncodeRune r)) = IsSpace r.
Proof.
  intros Hr.
  cut (Bool.eqb (spaceAhead true (EncodeRune r)) (IsSpace r)
       && Bool.eqb (spaceAhead false (rev (EncodeRune r))) (IsSpace r) = true).
  { rewrite andb_true_iff. intros [H1 H2].
    apply Bool.eqb_prop in H1. apply Bool.eqb_prop in H2. by split. }
  apply (forallRange_spec
           (λ r, Bool.eqb (spaceAhead true (EncodeRune r)) (IsSpace r)
                 && Bool.eqb (spaceAhead false (rev (EncodeRune r))) (IsSpace r))
           16 0); [by vm_compute|].
  change (2 ^ Z.of_nat 16)%Z with 0x10000%Z. lia.
Qed.

Lemma trimAhead_no_space (fwd : bool) (l : list ascii) :
  spaceAhead fwd (trimAhead fwd l) = false.
Proof.
  remember (length l) as n eqn:Hn. revert l Hn.
  induction n as [n IH] using lt_wf_ind. intros l ->.
  destruct l as [|c1 t1]; [done|]. simpl.
  destruct (asciiSpace c1) eqn:E1.
  { eapply IH; [|done]. simpl; lia. }
  destruct t1 as [|c2 t2]; [by simpl; rewrite E1|].
  destruct (if fwd then space2 c1 c2 else space2 c2 c1) eqn:E2.
  { eapply IH; [|done]. simpl; lia. }
  destruct t2 as [|c3 t3]; [by simpl; rewrite E1, E2|].
  destruct (if fwd then space3 c1 c2 c3 else space3 c3 c2 c1) eqn:E3.
  { eapply IH; [|done]. simpl; lia. }
  simpl. by rewrite E1, E2, E3.
Qed.

Lemma trimAhead_suffix (fwd : bool) (l : list ascii) :
  trimAhead fwd l `suffix_of` l.
Proof.
  remember (length l) as n eqn:Hn. revert l Hn.
  induction n as [n IH] using lt_wf_ind. intros l ->.
  destruct l as [|c1 t1]; [done|]. simpl.
  destruct (asciiSpace c1).
  { apply suffix_cons_r. eapply IH; [|done]. simpl; lia. }
  destruct t1 as [|c2 t2]; [done|].
  destruct (if fwd then space2 c1 c2 else space2 c2 c1).
  { do 2 apply suffix_cons_r. eapply IH; [|done]. simpl; lia. }
  destruct t2 as [|c3 t3]; [done|].
  destruct (if fwd then space3 c1 c2 c3 else space3 c3 c2 c1); [|done].
  do 3 apply suffix_cons_r. eapply IH; [|done]. simpl; lia.
Qed.

(** A white-space rune at the front stays one when bytes are appended. *)
Lemma spaceAhead_app (fwd : bool) (p q : list ascii) :
  spaceAhead fwd p = true → spaceAhead fwd (p ++ q) = true.
Proof.
  destruct p as [|c1 [|c2 [|c3 t3]]]; simpl; try done.
  - rewrite !orb_false_r. by intros ->.
  - rewrite !orb_false_r. intros [->| ->]%orb_true_iff; [done|].
    by rewrite orb_true_r.
Qed.

Lemma TrimSpace_chars (s : string) :
  chars (TrimSpace s) = TrimRight (TrimLeft (chars s)).
Proof. unfold TrimSpace, chars. by rewrite list_ascii_of_string_of_list_ascii. Qed.

(** What TrimSpace returns has no white space at either end. *)
Lemma TrimSpace_trimmed (s : string) : trimmed (TrimSpace s).
Proof.
  unfold trimmed, hasLeadingSpace, hasTrailingSpace.
  fold (chars (TrimSpace s)). rewrite TrimSpace_chars.
  set (u := TrimLeft (chars s)). unfold TrimRight. split.
  - destruct (trimAhead_suffix false (rev u)) as [p Hp].
    apply (f_equal (@rev ascii)) in Hp. rewrite rev_involutive, rev_app_distr in Hp.
    destruct (spaceAhead true (rev (trimAhead false (rev u)))) eqn:E; [|done].
    apply (spaceAhead_app true _ (rev p)) in E. rewrite <- Hp in E.
    unfold u, TrimLeft in E. by rewrite trimAhead_no_space in E.
  - rewrite rev_involutive. apply trimAhead_no_space.
Qed.

End TrimFacts.

(** ** The handlers *)

Section HandlerFacts.

Context {S : Type} `{!Store S} `{!Collaborators}.

Implicit Types (r : Request) (st : S) (hdr : gmap string (list string)).
Implicit Types (w : World S).

#[local] Arguments TrimSpace : simpl never.
#[local] Arguments Values_Get : simpl never.
#[local] Arguments Header_Get : simpl never.
#[local] Arguments Header_Set : simpl never.
#[local] Arguments FormatInt : simpl never.
#[local] Arguments ParseInt : simpl never.
#[local] Arguments lastChunk : simpl never.

Lemma httpFailf_run (code : Z) (msg : string) w :
  httpFailf code msg w =
  Some (tt, {| store := store w; trace := trace w;
               resp := Write (tmpl_error msg)
                         (WriteHeader code
                            {| header := Header_Set (header (resp w)) "content-type"
                                           "text/html;charset=utf-8";
                               status := status (resp w);
                               body := body (resp w) |}) |}).
Proof. reflexivity. Qed.

Lemma lookupFailureCode_cases (err : error) :
  lookupFailureCode err =
  match err with
  | ErrNotFound => StatusNotFound
  | ErrOther _ => StatusInternalServerError
  end.
Proof. by destruct err. Qed.

Lemma ParseInt_syntax_zero (s : string) :
  (ParseInt s).2 = Some ErrSyntax → (ParseInt s).1 = 0.
Proof.
  unfold ParseInt. destruct s as [|c0 s']; [done|].
  repeat (case_match; simplify_eq/=); done.
Qed.

Lemma stopsAtFailure_snoc (evs : list Event) (ev : Event) :
  Forall (λ e, failed e = false) evs → stopsAtFailure (evs ++ [ev]).
Proof.
  intros Hok pre ev' post E Hf.
  destruct post as [|x post _] using rev_ind; [done|].
  change (pre ++ ev' :: post ++ [x])%list
    with (pre ++ (ev' :: post) ++ [x])%list in E.
  rewrite app_assoc in E. apply app_inj_tail in E as [-> _].
  rewrite Forall_app, Forall_cons in Hok. destruct Hok as (_ & Hev & _).
  congruence.
Qed.

Lemma stopsAtFailure_nil : stopsAtFailure [].
Proof. intros [|??] ?? E; discriminate E. Qed.

Ltac unfold_handler :=
  unfold uploadHandler, showBenchmark, compareHandler, listHandler,
    mbind, Handler_bind, store_FindBenchmark, store_CreateBenchmark,
    store_ListBenchmarks, call_Compare, w_Header_Get, w_WriteHeader,
    w_Write, onResponse, panic.

Ltac branches :=
  repeat (case_match; simplify_eq/=);
  rewrite ?httpFailf_run in *; simplify_eq/=.

(** C1: in the benchmark-detail handler and at both lookups of the
    compare handler the result of the storage lookup is handled in three
    ways: without an error the run's content is written (status 200), or
    the handler goes on to the next lookup and then to Compare; on
    ErrNotFound, and only on it, the status is 404; on any other error the
    status is 500. *)
Theorem lookup_result_three_way_branch r st hdr :
  (∀ chunk benchID e bench err st',
     lastChunk (URL_Path r) = Some chunk →
     ParseInt chunk = (benchID, e) →
     benchID ≠ 0 →
     FindBenchmark st benchID = ((bench, err), st') →
     ∃ w', showBenchmark r (serve st hdr) = Some (tt, w')
       ∧ trace w' = [CallFindBenchmark benchID bench err]
       ∧ match err with
         | None =>
             status (resp w') = Some StatusOK ∧ body (resp w') = Content bench
         | Some ErrNotFound => status (resp w') = Some StatusNotFound
         | Some (ErrOther _) => status (resp w') = Some StatusInternalServerError
         end)
  ∧ (∀ aID ea a erra st1 bID eb b errb st2,
       Values_Get (URL_Query r) "a" ≠ "" →
       Values_Get (URL_Query r) "b" ≠ "" →
       ParseInt (Values_Get (URL_Query r) "a") = (aID, ea) →
       ParseInt (Values_Get (URL_Query r) "b") = (bID, eb) →
       FindBenchmark st aID = ((a, erra), st1) →
       FindBenchmark st1 bID = ((b, errb), st2) →
       ∃ w', compareHandler r (serve st hdr) = Some (tt, w')
         ∧ match erra with
           | Some ErrNotFound =>
               status (resp w') = Some StatusNotFound
               ∧ trace w' = [CallFindBenchmark aID a erra]
           | Some (ErrOther _) =>
               status (resp w') = Some StatusInternalServerError
               ∧ trace w' = [CallFindBenchmark aID a erra]
           | None =>
               match errb with
               | Some ErrNotFound =>
                   status (resp w') = Some StatusNotFound
                   ∧ trace w' = [CallFindBenchmark aID a None;
                                 CallFindBenchmark bID b errb]
               | Some (ErrOther _) =>
                   status (resp w') = Some StatusInternalServerError
                   ∧ trace w' = [CallFindBenchmark aID a None;
                                 CallFindBenchmark bID b errb]
               | None =>
                   trace w' = [CallFindBenchmark aID a None;
                               CallFindBenchmark bID b None;
                               CallCompare a b (Compare a b).1 (Compare a b).2]
               end
           end).
Proof.
  split.
  - intros chunk benchID e bench err st' Hc Hp Hz Hf.
    unfold_handler. rewrite Hc, Hp.
    destruct (Z.eqb_spec benchID 0) as [|_]; [done|].
    simpl. rewrite Hf.
    destruct err as [[|msg]|]; eexists; (split; [reflexivity|]); by simpl.
  - intros aID ea a erra st1 bID eb b errb st2 Ha Hb Hpa Hpb Hfa Hfb.
    unfold_handler.
    apply String.eqb_neq in Ha, Hb. rewrite Ha, Hb, Hpa. simpl. rewrite Hfa.
    destruct erra as [[|msg]|];
      [by eexists; split; [reflexivity|] ..|].
    rewrite Hpb. simpl. rewrite Hfb.
    destruct errb as [[|msg]|];
      [by eexists; split; [reflexivity|] ..|].
    destruct (Compare a b) as [cmp [errc|]]; by eexists; split; [reflexivity|].
Qed.

(** C3: with both ids supplied, both runs found and the comparison
    successful, the store is called exactly twice, both times to find a
    run, first the one of parameter a and then the one of b, and the body
    of the (200) response is the bytes Compare returned for them. *)
Theorem compare_success_two_lookups r st hdr aID ea a st1 bID eb b st2 cmp :
  Values_Get (URL_Query r) "a" ≠ "" →
  Values_Get (URL_Query r) "b" ≠ "" →
  ParseInt (Values_Get (URL_Query r) "a") = (aID, ea) →
  ParseInt (Values_Get (URL_Query r) "b") = (bID, eb) →
  FindBenchmark st aID = ((a, None), st1) →
  FindBenchmark st1 bID = ((b, None), st2) →
  Compare a b = (cmp, None) →
  ∃ w', compareHandler r (serve st hdr) = Some (tt, w')
    ∧ storeCalls w' = [CallFindBenchmark aID a None; CallFindBenchmark bID b None]
    ∧ trace w' = [CallFindBenchmark aID a None; CallFindBenchmark bID b None;
                  CallCompare a b cmp None]
    ∧ store w' = st2
    ∧ status (resp w') = Some StatusOK
    ∧ body (resp w') = cmp.
Proof.
  intros Ha Hb Hpa Hpb Hfa Hfb Hcmp. unfold_handler.
  apply String.eqb_neq in Ha, Hb. rewrite Ha, Hb, Hpa. simpl.
  rewrite Hfa, Hpb. simpl. rewrite Hfb, Hcmp.
  eexists; split; [reflexivity|]. by simpl.
Qed.

(** C7: a request makes each of its calls at most once and stops at the
    first that fails: the benchmark-detail handler makes at most one
    lookup; the compare handler makes at most the lookup of a, then the
    lookup of b, then the comparison of the two runs found, in this order;
    no call follows a failed call, and after a failed call the response
    has an error status. *)
Theorem failed_call_ends_request r st hdr :
  (URL_Path r ≠ "" →
   ∃ w', showBenchmark r (serve st hdr) = Some (tt, w')
     ∧ (length (trace w') ≤ 1)%nat
     ∧ stopsAtFailure (trace w')
     ∧ (∀ ev, ev ∈ trace w' → failed ev = true → 400 ≤ statusCode (resp w')))
  ∧ (∃ w', compareHandler r (serve st hdr) = Some (tt, w')
       ∧ (∃ a ea b eb out ec,
            trace w' `prefix_of`
              [CallFindBenchmark (ParseInt (Values_Get (URL_Query r) "a")).1 a ea;
               CallFindBenchmark (ParseInt (Values_Get (URL_Query r) "b")).1 b eb;
               CallCompare a b out ec])
       ∧ stopsAtFailure (trace w')
       ∧ (∀ ev, ev ∈ trace w' → failed ev = true → 400 ≤ statusCode (resp w'))).
Proof.
  split.
  - intros Hne. destruct (lastChunk_returns _ Hne) as [chunk Hc].
    unfold_handler. rewrite Hc.
    destruct (ParseInt chunk) as [benchID e].
    destruct (benchID =? 0).
    { eexists; split; [reflexivity|]. simpl.
      split; [lia|]. split; [apply stopsAtFailure_nil|].
      by intros ev ?%elem_of_nil. }
    simpl. destruct (FindBenchmark st benchID) as [[bench err] st'].
    destruct err as [[|msg]|]; (eexists; split; [reflexivity|]); simpl;
      (split; [lia|]); (split; [apply (stopsAtFailure_snoc []); constructor|]);
      intros ev ->%list_elem_of_singleton; simpl; try done;
      intros _; by compute.
  - unfold_handler.
    destruct (_ || _).
    { eexists; split; [reflexivity|]. simpl.
      split; [exists noBenchmark, None, noBenchmark, None, "", None; apply prefix_nil|].
      split; [apply stopsAtFailure_nil|]. by intros ev ?%elem_of_nil. }
    destruct (ParseInt (Values_Get (URL_Query r) "a")) as [aID ea].
    destruct (ParseInt (Values_Get (URL_Query r) "b")) as [bID eb].
    simpl. destruct (FindBenchmark st aID) as [[a erra] st1].
    destruct erra as [erra|].
    { eexists; split; [reflexivity|]. simpl.
      split; [exists a, (Some erra), a, None, "", None; by eexists [_; _]|].
      split; [apply (stopsAtFailure_snoc []); constructor|].
      intros ev _ _. rewrite lookupFailureCode_cases. by destruct erra. }
    simpl. destruct (FindBenchmark st1 bID) as [[b errb] st2].
    destruct errb as [errb|].
    { eexists; split; [reflexivity|]. simpl.
      split; [exists a, None, b, (Some errb), "", None; by eexists [_]|].
      split; [apply (stopsAtFailure_snoc [_]); by repeat constructor|].
      intros ev _ _. rewrite lookupFailureCode_cases. by destruct errb. }
    simpl. destruct (Compare a b) as [cmp errc].
    destruct errc as [errc|]; (eexists; split; [reflexivity|]); simpl.
    + split; [exists a, None, b, None, cmp, (Some errc); by eexists []|].
      split; [apply (stopsAtFailure_snoc [_; _]); by repeat constructor|].
      intros ev _ _. by compute.
    + split; [exists a, None, b, None, cmp, None; by eexists []|].
      split; [apply (stopsAtFailure_snoc [_; _]); by repeat constructor|].
      intros ev Hev Hf. exfalso.
      rewrite !elem_of_cons, elem_of_nil in Hev.
      destruct Hev as [->|[->|[->|[]]]]; by compute in Hf.
Qed.

(** C2: the verifier stub accepts every signature, content and secret;
    hence no upload is answered 401, and what an upload does to the store
    and what it answers are the same whatever the signature header and the
    secret are. *)
Theorem signature_never_rejects secret r st hdr :
  (∀ sig content secret', signed sig content secret' = true)
  ∧ (∀ w', uploadHandler secret r (serve st hdr) = Some (tt, w') →
           statusCode (resp w') ≠ StatusUnauthorized)
  ∧ (∀ secret' hdr',
       outcome (uploadHandler secret r (serve st hdr))
       = outcome (uploadHandler secret' r (serve st hdr'))).
Proof.
  split; [done|]. split.
  - intros w'. unfold_handler. intros Hrun.
    repeat (case_match; simplify_eq/=); rewrite ?httpFailf_run in *;
      simplify_eq/=; by compute.
  - intros secret' hdr'. unfold_handler.
    repeat (case_match; simplify_eq/=); done.
Qed.

(** C8: whatever the request, a call of CreateBenchmark gets content
    without white space at either end and of at least 10 bytes, and a
    non-empty commit without white space at either end, and when that
    call succeeds the answer is 201 with the id in decimal and a line
    feed as body (fmt.Fprintln); a request with a content part whose
    trimmed content is shorter than 10 bytes (empty included) or whose
    trimmed commit is empty is answered 400 and the store is not called;
    whenever the trimmed commit is empty, an answer is 400 and the store
    is not called; an upload that passes the checks and is stored is
    answered 201.  (A request without a content part makes the handler
    panic before it answers or calls the store.) *)
Theorem upload_checked_before_store secret r st hdr :
  (∀ w' content commit id err,
     uploadHandler secret r (serve st hdr) = Some (tt, w') →
     CallCreateBenchmark content commit id err ∈ trace w' →
     trimmed content ∧ 10 ≤ len content ∧ trimmed commit ∧ commit ≠ ""
     ∧ (err = None →
        status (resp w') = Some StatusCreated
        ∧ body (resp w') = FormatInt id ++ String "010" ""))
  ∧ (∀ raw rerr,
       FormFile r = Some (raw, rerr) →
       len (TrimSpace raw) < 10
       ∨ TrimSpace (Values_Get (Form r) "commit") = "" →
       ∃ w', uploadHandler secret r (serve st hdr) = Some (tt, w')
         ∧ status (resp w') = Some StatusBadRequest
         ∧ trace w' = [] ∧ store w' = st)
  ∧ (∀ w',
       uploadHandler secret r (serve st hdr) = Some (tt, w') →
       TrimSpace (Values_Get (Form r) "commit") = "" →
       status (resp w') = Some StatusBadRequest
       ∧ trace w' = [] ∧ store w' = st)
  ∧ (∀ raw id st',
       ParseMultipartForm r = None →
       FormFile r = Some (raw, None) →
       10 ≤ len (TrimSpace raw) →
       TrimSpace (Values_Get (Form r) "commit") ≠ "" →
       CreateBenchmark st (TrimSpace raw)
         (TrimSpace (Values_Get (Form r) "commit")) = ((id, None), st') →
       ∃ w', uploadHandler secret r (serve st hdr) = Some (tt, w')
         ∧ status (resp w') = Some StatusCreated
         ∧ body (resp w') = FormatInt id ++ String "010" ""
         ∧ trace w' = [CallCreateBenchmark (TrimSpace raw)
                         (TrimSpace (Values_Get (Form r) "commit")) id None]
         ∧ store w' = st').
Proof.
  split; [|split; [|split]].
  - intros w' content commit id err. unfold_handler. intros Hrun Hin.
    repeat (case_match; simplify_eq/=); rewrite ?httpFailf_run in *;
      simplify_eq/=;
      try (by apply elem_of_nil in Hin);
      apply list_elem_of_singleton in Hin; simplify_eq;
      (split; [apply TrimSpace_trimmed|]);
      (split; [lia|]); (split; [apply TrimSpace_trimmed|]);
      (split; [by apply String.eqb_neq|]); done.
  - intros raw rerr Hfile Hbad. unfold_handler. rewrite Hfile.
    destruct (ParseMultipartForm r) as [perr|];
      [by eexists; split; [reflexivity|]|].
    destruct rerr as [rerr|]; [by eexists; split; [reflexivity|]|].
    destruct (Z.eqb_spec (len (TrimSpace raw)) 0) as [|Hlen];
      [by eexists; split; [reflexivity|]|].
    destruct (String.eqb_spec (TrimSpace (Values_Get (Form r) "commit")) "")
      as [|Hcommit]; [by eexists; split; [reflexivity|]|].
    destruct Hbad as [Hshort|]; [|done]. simpl.
    destruct (Z.ltb_spec (len (TrimSpace raw)) 10); [|lia].
    by eexists; split; [reflexivity|].
  - intros w'. unfold_handler. intros Hrun Hcommit. rewrite Hcommit in Hrun.
    repeat (case_match; simplify_eq/=); rewrite ?httpFailf_run in *;
      by simplify_eq/=.
  - intros raw id st' Hform Hfile Hlen Hcommit Hcreate.
    unfold_handler. rewrite Hform, Hfile.
    destruct (Z.eqb_spec (len (TrimSpace raw)) 0); [lia|].
    apply String.eqb_neq in Hcommit. rewrite Hcommit. simpl.
    destruct (Z.ltb_spec (len (TrimSpace raw)) 10); [lia|].
    simpl. rewrite Hcreate. by eexists; split; [reflexivity|].
Qed.

(** C10, as the code has it: when the final path segment is one that
    ParseInt rejects with a syntax error, or one that it converts to zero,
    the benchmark-detail handler answers 404 and does not call the
    store. *)
Theorem showBenchmark_zero_id_not_found r st hdr chunk :
  lastChunk (URL_Path r) = Some chunk →
  (ParseInt chunk).2 = Some ErrSyntax ∨ (ParseInt chunk).1 = 0 →
  ∃ w', showBenchmark r (serve st hdr) = Some (tt, w')
    ∧ status (resp w') = Some StatusNotFound
    ∧ trace w' = [] ∧ store w' = st.
Proof.
  intros Hc Hz.
  assert ((ParseInt chunk).1 = 0) as Hzero
    by (destruct Hz; [by apply ParseInt_syntax_zero | done]).
  unfold_handler. rewrite Hc.
  destruct (ParseInt chunk) as [benchID e]. simpl in Hzero. subst benchID.
  by eexists; split; [reflexivity|].
Qed.


End HandlerFacts.

(** ** Two requests compared *)

Section Determinism.

Context {S1 S2 : Type} `{!Store S1} `{!Store S2} `{!Collaborators}.

#[local] Arguments Values_Get : simpl never.
#[local] Arguments Header_Set : simpl never.
#[local] Arguments FormatInt : simpl never.
#[local] Arguments ParseInt : simpl never.


End Determinism.

(** ** The parser *)

Import core.

Section ParserFacts.

Context {num : Type} (parseNum : string → option num).

Lemma toRun_empty (ms : list (Measurement num)) : toRun ms = ∅ ↔ ms = [].
Proof.
  split; [|by intros ->].
  destruct ms as [|m ms _] using rev_ind; [done|].
  unfold toRun. rewrite foldl_snoc. intros E. by apply insert_non_empty in E.
Qed.

Lemma pairs_non_empty (toks : list string) (acc : gmap string num) :
  acc ≠ ∅ → pairs parseNum toks acc ≠ ∅.
Proof.
  remember (length toks) as n eqn:Hn. revert toks acc Hn.
  induction n as [n IH] using lt_wf_ind. intros toks acc -> Hacc.
  destruct toks as [|value [|unit rest]]; [done..|]. simpl.
  eapply IH; [|done|]; [simpl; lia|].
  destruct (parseNum value); [apply insert_non_empty | done].
Qed.

Lemma parseLine_candidate (line : string) (m : Measurement num) :
  parseLine parseNum line = Some m → candidateLine line.
Proof.
  unfold parseLine, candidateLine.
  destruct (tokens line) as [|tok0 rest]; [done|].
  destruct (String.prefix "Benchmark" tok0) eqn:E; [|done]. eauto.
Qed.

Lemma parseLine_wellFormed (line : string) :
  wellFormedLine parseNum line → is_Some (parseLine parseNum line).
Proof.
  intros (tok0 & iterations & value & unit & rest & Htok & Hpre & [x Hx]).
  unfold parseLine. rewrite Htok, Hpre. simpl. rewrite Hx.
  destruct (decide _) as [E|_]; [|done].
  by apply pairs_non_empty in E; [|apply insert_non_empty].
Qed.

(** C4: parse fails, with the reason "no benchmark measurements found"
    and with no other error, exactly when no line of the input yields a
    valid measurement; an input without a line whose first token starts
    with Benchmark fails, and an input with a well-formed measurement
    line gives a run, which is not empty. *)
Theorem parse_fails_iff_no_measurement (rawText : string) :
  (parse parseNum rawText = inl (mkParseError "no benchmark measurements found")
   ↔ collect parseNum rawText = [])
  ∧ (∀ e, parse parseNum rawText = inl e
          → e = mkParseError "no benchmark measurements found")
  ∧ (collect parseNum rawText = []
     ↔ ∀ line, line ∈ lines rawText → parseLine parseNum line = None)
  ∧ ((∀ line, line ∈ lines rawText → ¬ candidateLine line)
     → parse parseNum rawText = inl (mkParseError "no benchmark measurements found"))
  ∧ ((∃ line, line ∈ lines rawText ∧ wellFormedLine parseNum line)
     → ∃ run, parse parseNum rawText = inr run ∧ run ≠ ∅).
Proof.
  assert (collect parseNum rawText = []
          ↔ ∀ line, line ∈ lines rawText → parseLine parseNum line = None) as Hnone.
  { unfold collect. split.
    - intros E line Hin. destruct (parseLine parseNum line) as [m|] eqn:Hm; [|done].
      assert (m ∈ omap (parseLine parseNum) (lines rawText)) as Hm'
        by (apply list_elem_of_omap; eauto).
      rewrite E in Hm'. by apply elem_of_nil in Hm'.
    - intros Hall. destruct (omap _ _) as [|m ms] eqn:E; [done|].
      assert (m ∈ omap (parseLine parseNum) (lines rawText)) as Hm
        by (rewrite E; left).
      apply list_elem_of_omap in Hm as (line & Hin & Hm).
      by rewrite (Hall line Hin) in Hm. }
  assert (parse parseNum rawText = inl (mkParseError "no benchmark measurements found")
          ↔ collect parseNum rawText = []) as Hfail.
  { unfold parse. destruct (decide _) as [E|E]; rewrite toRun_empty in E; by split. }
  split; [done|]. split; [|split; [done|split]].
  - intros e. unfold parse. destruct (decide _); [congruence|done].
  - intros Hnc. apply Hfail, Hnone. intros line Hin.
    destruct (parseLine parseNum line) as [m|] eqn:Hm; [|done].
    destruct (Hnc line Hin). by eapply parseLine_candidate.
  - intros (line & Hin & Hwf). unfold parse.
    destruct (decide _) as [E|E]; [|eauto].
    apply toRun_empty in E. pose proof (proj1 Hnone E line Hin) as Hl.
    apply parseLine_wellFormed in Hwf as [m Hm]. by rewrite Hl in Hm.
Qed.

End ParserFacts.

(** ** The handlers and the parser on the sample data *)

Section Samples.

#[local] Existing Instance plainCollaborators.

Example lastChunk_id : lastChunk "/benchmarks/42" = Some "42".
Proof. reflexivity. Qed.

Example lastChunk_two_trailing : lastChunk "/benchmarks/42//" = Some "".
Proof. reflexivity. Qed.

Example lastChunk_plain : lastChunk "42" = Some "42".
Proof. reflexivity. Qed.

Example ParseInt_clamps : ParseInt "9223372036854775808" = (9223372036854775807, Some ErrRange).
Proof. reflexivity. Qed.

Example ParseInt_range_before_syntax :
  ParseInt "99999999999999999999x" = (9223372036854775807, Some ErrRange).
Proof. reflexivity. Qed.

Example TrimSpace_upload :
  TrimSpace (String LF "BenchmarkFoo-1 100 10 ns/op" ++ String LF "")
  = "BenchmarkFoo-1 100 10 ns/op".
Proof. reflexivity. Qed.

Example parse_leniency :
  parse parseDecimal sampleOutput
  = inr (run [("BenchmarkFoo-1", [("ns/op", ofZ 5)])]).
Proof. by vm_compute. Qed.

Example parse_total_failure :
  parse parseDecimal ("PASS" ++ String LF "ok  	pkg 0.1s")
  = inl (mkParseError "no benchmark measurements found").
Proof. by vm_compute. Qed.

Example parse_duplicate_name_override :
  parse parseDecimal
    ("BenchmarkFoo 100 5 ns/op 3 allocs/op" ++ String LF "BenchmarkFoo 200 4 ns/op")
  = inr (run [("BenchmarkFoo", [("ns/op", ofZ 4)])]).
Proof. by vm_compute. Qed.

Lemma lookup_result_three_way_branch_witness :
  (∃ w', showBenchmark (GET "/benchmarks/1" []) (serve twoRuns ∅) = Some (tt, w')
     ∧ trace w' = [CallFindBenchmark 1 fooRun None]
     ∧ status (resp w') = Some StatusOK ∧ body (resp w') = Content fooRun)
  ∧ (∃ w', compareHandler compareOneSeven (serve twoRuns ∅) = Some (tt, w')
       ∧ status (resp w') = Some StatusNotFound
       ∧ trace w' = [CallFindBenchmark 1 fooRun None;
                     CallFindBenchmark 7 noBenchmark (Some ErrNotFound)]).
Proof.
  split.
  - apply (proj1 (lookup_result_three_way_branch (GET "/benchmarks/1" []) twoRuns ∅)
             "1" 1 None fooRun None twoRuns);
      [reflexivity | reflexivity | lia | reflexivity].
  - apply (proj2 (lookup_result_three_way_branch compareOneSeven twoRuns ∅)
             1 None fooRun None twoRuns 7 None noBenchmark (Some ErrNotFound) twoRuns);
      [by vm_compute | by vm_compute | reflexivity | reflexivity
      | reflexivity | reflexivity].
Defined.

Lemma signature_never_rejects_witness :
  signed "forged" "BenchmarkFoo-1 100 10 ns/op" "s3cret" = true
  ∧ (∃ w', uploadHandler "s3cret" uploadFoo (serve ([] : list Benchmark) ∅)
           = Some (tt, w')
       ∧ statusCode (resp w') ≠ StatusUnauthorized)
  ∧ outcome (uploadHandler "s3cret" uploadFoo (serve ([] : list Benchmark) ∅))
    = outcome (uploadHandler "other" uploadFoo
                 (serve [] (Header_Set ∅ "signature" "forged"))).
Proof.
  destruct (signature_never_rejects "s3cret" uploadFoo ([] : list Benchmark) ∅)
    as (Hsigned & Hstatus & Hsame).
  split; [apply Hsigned|]. split; [|apply Hsame].
  eexists. split; [vm_compute; reflexivity|]. apply Hstatus. vm_compute; reflexivity.
Defined.

Lemma compare_success_two_lookups_witness :
  ∃ w', compareHandler compareOneTwo (serve twoRuns ∅) = Some (tt, w')
    ∧ storeCalls w' = [CallFindBenchmark 1 fooRun None; CallFindBenchmark 2 barRun None]
    ∧ trace w' = [CallFindBenchmark 1 fooRun None; CallFindBenchmark 2 barRun None;
                  CallCompare fooRun barRun
                    "BenchmarkFoo-1 100 10 ns/op vs BenchmarkFoo-1 100 12 ns/op" None]
    ∧ store w' = twoRuns
    ∧ status (resp w') = Some StatusOK
    ∧ body (resp w') = "BenchmarkFoo-1 100 10 ns/op vs BenchmarkFoo-1 100 12 ns/op".
Proof.
  apply (compare_success_two_lookups compareOneTwo twoRuns ∅
           1 None fooRun twoRuns 2 None barRun twoRuns);
    [by vm_compute | by vm_compute | reflexivity | reflexivity
    | reflexivity | reflexivity | reflexivity].
Defined.

Lemma failed_call_ends_request_witness :
  ∃ w', showBenchmark (GET "/benchmarks/7" []) (serve twoRuns ∅) = Some (tt, w')
    ∧ (length (trace w') ≤ 1)%nat
    ∧ stopsAtFailure (trace w')
    ∧ (∀ ev, ev ∈ trace w' → failed ev = true → 400 ≤ statusCode (resp w')).
Proof.
  apply (failed_call_ends_request (GET "/benchmarks/7" []) twoRuns ∅).
  by vm_compute.
Defined.

Lemma upload_checked_before_store_witness :
  (∃ w', uploadHandler "s3cret" uploadDummy (serve twoRuns ∅) = Some (tt, w')
     ∧ status (resp w') = Some StatusBadRequest
     ∧ trace w' = [] ∧ store w' = twoRuns)
  ∧ (∃ w', uploadHandler "s3cret" uploadFoo (serve twoRuns ∅) = Some (tt, w')
       ∧ status (resp w') = Some StatusCreated
       ∧ body (resp w') = "3" ++ String LF ""
       ∧ trace w' = [CallCreateBenchmark "BenchmarkFoo-1 100 10 ns/op" "c0ffee" 3 None]
       ∧ store w' = (twoRuns ++ [{| ID := 3; Created := 0;
                                    Content := "BenchmarkFoo-1 100 10 ns/op";
                                    Commit := "c0ffee" |}])%list).
Proof.
  split.
  - apply (proj1 (proj2 (upload_checked_before_store "s3cret" uploadDummy twoRuns ∅))
             "  dummy  " None); [reflexivity|].
    left. by vm_compute.
  - apply (proj2 (proj2 (proj2 (upload_checked_before_store "s3cret" uploadFoo twoRuns ∅)))
             (String LF "BenchmarkFoo-1 100 10 ns/op" ++ String LF "") 3);
      [reflexivity | reflexivity | by vm_compute | by vm_compute | reflexivity].
Defined.

Lemma showBenchmark_zero_id_not_found_witness :
  ∃ w', showBenchmark (GET "/benchmarks/latest" []) (serve twoRuns ∅) = Some (tt, w')
    ∧ status (resp w') = Some StatusNotFound
    ∧ trace w' = [] ∧ store w' = twoRuns.
Proof.
  apply (showBenchmark_zero_id_not_found (GET "/benchmarks/latest" []) twoRuns ∅ "latest");
    [reflexivity | left; reflexivity].
Defined.

(** C10, as stated, fails: the segment 9223372036854775808 is out of the
    int64 range, ParseInt reports the range error together with the
    largest int64, the error is dropped, and the store is asked for that
    id. *)
Lemma showBenchmark_out_of_range_id_reaches_store :
  lastChunk "/benchmarks/9223372036854775808" = Some "9223372036854775808"
  ∧ notAnIdOrZero "9223372036854775808"
  ∧ ¬ ∃ w', showBenchmark (GET "/benchmarks/9223372036854775808" [])
              (serve ([] : list Benchmark) ∅) = Some (tt, w')
            ∧ status (resp w') = Some StatusNotFound
            ∧ storeCalls w' = [].
Proof.
  split; [reflexivity|]. split; [left; by vm_compute|].
  intros (w' & Hrun & _ & Hcalls). vm_compute in Hrun. injection Hrun as <-.
  by vm_compute in Hcalls.
Qed.


Lemma parse_fails_iff_no_measurement_witness :
  parse parseDecimal "noise line" = inl (mkParseError "no benchmark measurements found")
  ∧ ∃ run, parse parseDecimal sampleOutput = inr run ∧ run ≠ ∅.
Proof.
  split.
  - apply (parse_fails_iff_no_measurement parseDecimal "noise line").
    intros line Hin (tok0 & rest & Htok & Hpre).
    change (lines "noise line") with ["noise line"] in Hin.
    apply list_elem_of_singleton in Hin as ->.
    vm_compute in Htok. injection Htok as <- <-. by vm_compute in Hpre.
  - apply (parse_fails_iff_no_measurement parseDecimal sampleOutput).
    exists "BenchmarkFoo-1 100 5 ns/op". split.
    + change (lines sampleOutput)
        with ["noise line"; "BenchmarkFoo-1 100 5 ns/op"; "more noise"; ""].
      right. left.
    + exists "BenchmarkFoo-1", "100", "5", "ns/op", [].
      split; [reflexivity|]. split; [reflexivity|]. by eexists.
Defined.

End Samples.

(** * Further properties of handlers.go *)

(** ** ParseInt: range and decimal round trip *)

Section ParseIntFacts.

Lemma int64_range (z : Z) : - 2 ^ 63 ≤ int64 z < 2 ^ 63.
Proof. unfold int64. pose proof (Z.mod_pos_bound (z + 2 ^ 63) (2 ^ 64)). lia. Qed.

Lemma int64_id (z : Z) : - 2 ^ 63 ≤ z < 2 ^ 63 → int64 z = z.
Proof. intros Hz. unfold int64. rewrite Z.mod_small; lia. Qed.

(** Whatever the text, the value ParseInt returns is an int64. *)
Lemma ParseInt_range (s : string) : - 2 ^ 63 ≤ (ParseInt s).1 < 2 ^ 63.
Proof.
  unfold ParseInt. destruct s as [|c0 s']; [simpl; lia|].
  repeat (case_match; simplify_eq/=); try lia; apply int64_range.
Qed.

Lemma digit_pretty_N_char (d : N) :
  (d < 10)%N → digit (pretty_N_char d) = Some (Z.of_N d).
Proof.
  intros Hd. rewrite <- (N2Nat.id d).
  assert (N.to_nat d < 10)%nat as Hn by lia.
  destruct (N.to_nat d) as [|[|[|[|[|[|[|[|[|[|n]]]]]]]]]]; try done. exfalso. lia.
Qed.

(** The digit loop reads back what [pretty_N_go] writes in front of [s]. *)
Lemma ParseUint_loop_pretty (x : N) (s : string) :
  (Z.of_N x < 2 ^ 64) →
  ParseUint_loop (pretty_N_go x s) 0 = ParseUint_loop s (Z.of_N x).
Proof.
  revert s. induction (N.lt_wf_0 x) as [x _ IH]. intros s Hx.
  destruct (decide (x = 0%N)) as [->|Hpos]; [by rewrite pretty_N_go_0|].
  rewrite pretty_N_go_step by lia.
  assert (x `div` 10 < x)%N as Hlt by (apply N.div_lt; lia).
  rewrite IH by (try done; lia). simpl.
  rewrite digit_pretty_N_char by (apply N.mod_lt; lia).
  pose proof (N.div_mod x 10 ltac:(lia)) as Hdm.
  pose proof (N.mod_lt x 10 ltac:(lia)) as Hm.
  assert (Z.of_N x = Z.of_N (x `div` 10) * 10 + Z.of_N (x `mod` 10)) as Hx' by lia.
  assert (0 ≤ Z.of_N (x `mod` 10) < 10) as Hm'
    by (split; [apply N2Z.is_nonneg | by apply (N2Z.inj_lt _ 10)]).
  assert (0 ≤ Z.of_N (x `div` 10)) as Hq by apply N2Z.is_nonneg.
  clear IH Hdm Hm Hlt Hpos.
  set (q := Z.of_N (x `div` 10)) in *. set (m := Z.of_N (x `mod` 10)) in *.
  clearbody q m.
  unfold cutoff10, maxUint64, uint64 in *.
  change (2 ^ 64 - 1) with 18446744073709551615 in *.
  change (2 ^ 64) with 18446744073709551616 in *.
  change (18446744073709551615 / 10 + 1) with 1844674407370955162.
  destruct (Z.geb_spec q 1844674407370955162) as [|_]; [exfalso; lia|].
  rewrite (Z.mod_small (q * 10)) by lia.
  rewrite Z.mod_small by lia.
  destruct (Z.ltb_spec (q * 10 + m) (q * 10)) as [|_]; [exfalso; lia|].
  destruct (Z.gtb_spec (q * 10 + m) 18446744073709551615) as [|_]; [exfalso; lia|].
  simpl. by rewrite <- Hx'.
Qed.

(** The first character of a positive number in decimal is a digit. *)
Lemma pretty_N_go_head (x : N) (s : string) :
  (0 < x)%N → ∃ d t, pretty_N_go x s = String (pretty_N_char d) t.
Proof.
  revert s. induction (N.lt_wf_0 x) as [x _ IH]. intros s Hx.
  rewrite pretty_N_go_step by done.
  destruct (decide (x `div` 10 = 0)%N) as [E|E].
  - rewrite E, pretty_N_go_0. eauto.
  - apply IH; [by apply N.div_lt | by apply N.neq_0_lt_0].
Qed.

Lemma pretty_N_char_not_sign (d : N) :
  Ascii.eqb (pretty_N_char d) "+" || Ascii.eqb (pretty_N_char d) "-" = false.
Proof. unfold pretty_N_char. by repeat case_match. Qed.

Lemma ParseUint_pretty (p : positive) :
  Z.pos p < 2 ^ 64 → ParseUint (pretty_N_go (N.pos p) "") = (Z.pos p, None).
Proof.
  intros Hp. destruct (pretty_N_go_head (N.pos p) "") as (d & t & E); [lia|].
  unfold ParseUint. rewrite E, <- E. by rewrite ParseUint_loop_pretty.
Qed.

(** ParseInt reads back the decimal text of every int64. *)
Lemma ParseInt_FormatInt (z : Z) :
  - 2 ^ 63 ≤ z < 2 ^ 63 → ParseInt (FormatInt z) = (z, None).
Proof.
  intros Hz. unfold FormatInt, pretty, pretty_Z.
  destruct z as [|p|p]; [done|..].
  - unfold pretty, pretty_positive, pretty, pretty_N.
    destruct (decide _) as [|_]; [done|].
    destruct (pretty_N_go_head (N.pos p) "") as (d & t & E); [lia|].
    unfold ParseInt. rewrite E, pretty_N_char_not_sign.
    assert (Ascii.eqb (pretty_N_char d) "-" = false) as ->.
    { pose proof (pretty_N_char_not_sign d) as H. by apply orb_false_iff in H as [_ ->]. }
    rewrite <- E, ParseUint_pretty by lia. simpl.
    destruct (Z.geb_spec (Z.pos p) (2 ^ 63)) as [|_]; [exfalso; lia|].
    by rewrite int64_id by lia.
  - unfold pretty, pretty_positive, pretty, pretty_N.
    destruct (decide _) as [|_]; [done|].
    change ("-" +:+ pretty_N_go (N.pos p) "") with (String "-" (pretty_N_go (N.pos p) "")).
    unfold ParseInt.
    change (Ascii.eqb "-" "-") with true. change (Ascii.eqb "-" "+") with false.
    simpl orb. cbv iota.
    rewrite ParseUint_pretty by lia. cbv beta iota zeta. simpl negb. simpl andb.
    destruct (Z.gtb_spec (Z.pos p) (2 ^ 63)) as [|_]; [exfalso; lia|].
    f_equal. destruct (decide (p = 9223372036854775808%positive)) as [->|]; [done|].
    rewrite (int64_id (Z.pos p)) by lia. rewrite int64_id; lia.
Qed.

Lemma contains_pretty_N_go (x : N) (s : string) :
  contains "/" (pretty_N_go x s) = contains "/" s.
Proof.
  revert s. induction (N.lt_wf_0 x) as [x _ IH]. intros s.
  destruct (decide (x = 0%N)) as [->|Hpos]; [by rewrite pretty_N_go_0|].
  rewrite pretty_N_go_step by lia. rewrite IH by (apply N.div_lt; lia).
  simpl. unfold pretty_N_char. by repeat case_match.
Qed.

Lemma FormatInt_slash_free (z : Z) : contains "/" (FormatInt z) = false.
Proof.
  unfold FormatInt, pretty, pretty_Z. destruct z as [|p|p]; [done|..];
    unfold pretty, pretty_positive, pretty, pretty_N;
    (destruct (decide _) as [|_]; [done|]).
  - apply contains_pretty_N_go.
  - change ("-" +:+ pretty_N_go (N.pos p) "") with (String "-" (pretty_N_go (N.pos p) "")).
    simpl. apply contains_pretty_N_go.
Qed.

Lemma FormatInt_non_empty (z : Z) : FormatInt z ≠ "".
Proof.
  unfold FormatInt, pretty, pretty_Z. destruct z as [|p|p]; [done|..];
    unfold pretty, pretty_positive, pretty, pretty_N;
    (destruct (decide _) as [|_]; [done|]).
  - by destruct (pretty_N_go_head (N.pos p) "") as (d & t & ->).
  - done.
Qed.

End ParseIntFacts.

(** ** TrimSpace: fixed points and what is cut *)

Section TrimMore.

Local Open Scope nat_scope.

Lemma trimAhead_id (fwd : bool) (l : list ascii) :
  spaceAhead fwd l = false → trimAhead fwd l = l.
Proof.
  destruct l as [|c1 [|c2 [|c3 t3]]]; simpl; try done.
  - by intros [-> _]%orb_false_iff.
  - intros [-> [-> _]%orb_false_iff]%orb_false_iff. done.
  - intros [-> [-> ->]%orb_false_iff]%orb_false_iff. done.
Qed.

(** A string without white space at its ends is left as it is. *)
Lemma TrimSpace_id (s : string) : trimmed s → TrimSpace s = s.
Proof.
  intros [Hl Hr]. unfold hasLeadingSpace, hasTrailingSpace in *.
  unfold TrimSpace, TrimRight, TrimLeft.
  rewrite (trimAhead_id true) by done. rewrite (trimAhead_id false) by done.
  by rewrite rev_involutive, string_of_list_ascii_of_string.
Qed.

Lemma TrimSpace_idempotent (s : string) : TrimSpace (TrimSpace s) = TrimSpace s.
Proof. apply TrimSpace_id, TrimSpace_trimmed. Qed.

(** TrimSpace returns a contiguous part of its argument. *)
Lemma TrimSpace_infix (s : string) : ∃ pre post, s = pre ++ TrimSpace s ++ post.
Proof.
  destruct (trimAhead_suffix true (chars s)) as [p1 Hp1].
  destruct (trimAhead_suffix false (rev (trimAhead true (chars s)))) as [p2 Hp2].
  apply (f_equal (@rev ascii)) in Hp2. rewrite rev_involutive, rev_app_distr in Hp2.
  exists (string_of_list_ascii p1), (string_of_list_ascii (rev p2)).
  apply chars_inj. rewrite !chars_app, TrimSpace_chars. unfold chars at 2 4.
  rewrite !list_ascii_of_string_of_list_ascii.
  unfold TrimRight, TrimLeft. by rewrite <- Hp2.
Qed.

Lemma trimAhead_all_space (fwd : bool) (l : list ascii) :
  forallb asciiSpace l = true → trimAhead fwd l = [].
Proof.
  induction l as [|c l IH]; [done|]. simpl.
  intros [-> Hl]%andb_true_iff. auto.
Qed.

(** A string of ASCII white space only is trimmed to nothing. *)
Lemma TrimSpace_all_space (s : string) :
  forallb asciiSpace (chars s) = true → TrimSpace s = "".
Proof.
  intros Hs. unfold TrimSpace, TrimLeft. fold (chars s).
  by rewrite trimAhead_all_space.
Qed.

End TrimMore.

(** ** The four handlers: paths, statuses, calls *)

Section HandlersMore.

Context {S : Type} `{!Store S} `{!Collaborators}.

Implicit Types (r : Request) (st : S) (hdr : gmap string (list string)).
Implicit Types (w : World S).

#[local] Arguments TrimSpace : simpl never.
#[local] Arguments Values_Get : simpl never.
#[local] Arguments Header_Get : simpl never.
#[local] Arguments Header_Set : simpl never.
#[local] Arguments FormatInt : simpl never.
#[local] Arguments ParseInt : simpl never.
#[local] Arguments lastChunk : simpl never.

Ltac unfold_handlers :=
  unfold uploadHandler, showBenchmark, compareHandler, listHandler,
    mbind, Handler_bind, store_FindBenchmark, store_CreateBenchmark,
    store_ListBenchmarks, call_Compare, w_Header_Get, w_WriteHeader,
    w_Write, onResponse, panic.

(** Case analysis on a run [H : handler ... = Some _]. *)
Ltac run_cases :=
  repeat match goal with
         | H : ?run = Some _ |- _ =>
             match run with
             | context [match ?x with _ => _ end] => destruct x eqn:?
             | httpFailf _ _ _ => rewrite httpFailf_run in H
             end; simplify_eq/=
         end.

(** X2: the benchmark-detail handler ignores one slash at the end of the
    path: two requests whose paths differ by it are served alike. *)
Theorem showBenchmark_ignores_one_slash r r' w :
  URL_Path r ≠ "" → (∀ p, URL_Path r ≠ p ++ "/") →
  URL_Path r' = URL_Path r ++ "/" →
  showBenchmark r' w = showBenchmark r w.
Proof.
  intros Hne Hend Hpath. unfold showBenchmark.
  by rewrite Hpath, lastChunk_ignores_one_slash.
Qed.

(** X3: a path that ends in two slashes, or is the single slash, has an
    empty last chunk: the benchmark-detail handler answers 404 and does
    not call the store. *)
Theorem showBenchmark_double_slash_not_found r st hdr :
  (∃ pre, URL_Path r = pre ++ "//") ∨ URL_Path r = "/" →
  ∃ w', showBenchmark r (serve st hdr) = Some (tt, w')
    ∧ status (resp w') = Some StatusNotFound
    ∧ trace w' = [] ∧ store w' = st.
Proof.
  intros Hpath.
  assert (lastChunk (URL_Path r) = Some "") as Hc.
  { destruct Hpath as [[pre ->] | ->]; [apply lastChunk_double_slash | done]. }
  unfold_handlers. rewrite Hc. by eexists; split; [reflexivity|].
Qed.

(** X4: the decimal text of a run's id, as the upload handler prints it
    and as the listing links to it, leads the benchmark-detail handler to
    exactly that run: for an id other than zero the store is asked once,
    for this id, with or without a slash at the end of the path. *)
Theorem showBenchmark_finds_printed_id r st hdr pre id :
  id ≠ 0 → - 2 ^ 63 ≤ id < 2 ^ 63 →
  URL_Path r = pre ++ "/" ++ FormatInt id
  ∨ URL_Path r = pre ++ "/" ++ FormatInt id ++ "/" →
  ∃ w' bench err,
    showBenchmark r (serve st hdr) = Some (tt, w')
    ∧ trace w' = [CallFindBenchmark id bench err]
    ∧ FindBenchmark st id = ((bench, err), store w').
Proof.
  intros Hid Hrange Hpath.
  assert (lastChunk (URL_Path r) = Some (FormatInt id)) as Hc.
  { destruct Hpath as [-> | ->].
    - apply lastChunk_join_plain;
        [apply FormatInt_non_empty | apply FormatInt_slash_free].
    - apply lastChunk_join_slash, FormatInt_slash_free. }
  unfold_handlers. rewrite Hc, ParseInt_FormatInt by done.
  destruct (Z.eqb_spec id 0) as [|_]; [done|]. simpl.
  destruct (FindBenchmark st id) as [[bench err] st'] eqn:Hf.
  destruct err as [[|msg]|]; by eexists _, _, _; split; [reflexivity|].
Qed.

(** X5: every id the store is asked to find is an int64, whatever the
    text of the request; and the benchmark-detail handler never asks for
    the id zero. *)
Theorem lookup_ids_are_int64 r st hdr :
  (∀ w' id bench err,
     showBenchmark r (serve st hdr) = Some (tt, w') →
     CallFindBenchmark id bench err ∈ trace w' →
     id ≠ 0 ∧ - 2 ^ 63 ≤ id < 2 ^ 63)
  ∧ (∀ w' id bench err,
       compareHandler r (serve st hdr) = Some (tt, w') →
       CallFindBenchmark id bench err ∈ trace w' →
       - 2 ^ 63 ≤ id < 2 ^ 63).
Proof.
  split.
  - intros w' id bench err. unfold_handlers. intros Hrun Hin.
    destruct (lastChunk (URL_Path r)) as [chunk|]; [|done].
    pose proof (ParseInt_range chunk) as Hr.
    destruct (ParseInt chunk) as [benchID e]. simpl in Hr.
    destruct (Z.eqb_spec benchID 0).
    { rewrite httpFailf_run in Hrun. simplify_eq/=. by apply elem_of_nil in Hin. }
    run_cases; apply list_elem_of_singleton in Hin; by simplify_eq.
  - intros w' id bench err. unfold_handlers. intros Hrun Hin.
    pose proof (ParseInt_range (Values_Get (URL_Query r) "a")) as Ha.
    pose proof (ParseInt_range (Values_Get (URL_Query r) "b")) as Hb.
    destruct (ParseInt (Values_Get (URL_Query r) "a")) as [aID ea].
    destruct (ParseInt (Values_Get (URL_Query r) "b")) as [bID eb].
    simpl in Ha, Hb.
    run_cases; rewrite ?elem_of_cons, ?elem_of_nil in Hin;
      destruct_or?; by simplify_eq.
Qed.

(** X6: the compare handler calls nothing exactly when one of the two ids
    is missing or empty, and then it answers 400 and leaves the store as
    it was; with both ids given its first call is the lookup of a, also
    when a is not a number. *)
Theorem compareHandler_calls_iff_both_ids r st hdr :
  ∃ w', compareHandler r (serve st hdr) = Some (tt, w')
    ∧ (trace w' = []
       ↔ Values_Get (URL_Query r) "a" = "" ∨ Values_Get (URL_Query r) "b" = "")
    ∧ (trace w' = [] → status (resp w') = Some StatusBadRequest ∧ store w' = st)
    ∧ (trace w' ≠ [] →
       ∃ bench err, head (trace w')
                    = Some (CallFindBenchmark
                              (ParseInt (Values_Get (URL_Query r) "a")).1 bench err)).
Proof.
  unfold_handlers.
  destruct (String.eqb_spec (Values_Get (URL_Query r) "a") "") as [Ea|Ea];
    [|destruct (String.eqb_spec (Values_Get (URL_Query r) "b") "") as [Eb|Eb]];
    simpl.
  1,2: eexists; (split; [reflexivity|]); simpl;
    (split; [split; auto|]); (split; [done|]); by intros [].
  destruct (ParseInt (Values_Get (URL_Query r) "a")) as [aID ea].
  destruct (ParseInt (Values_Get (URL_Query r) "b")) as [bID eb].
  simpl. destruct (FindBenchmark st aID) as [[a erra] st1].
  destruct erra as [erra|].
  { eexists; split; [reflexivity|]. simpl.
    split; [split; [done|by intros [|]]|]. split; [done|eauto]. }
  simpl. destruct (FindBenchmark st1 bID) as [[b errb] st2].
  destruct errb as [errb|].
  { eexists; split; [reflexivity|]. simpl.
    split; [split; [done|by intros [|]]|]. split; [done|eauto]. }
  simpl. destruct (Compare a b) as [cmp [errc|]];
    (eexists; split; [reflexivity|]); simpl;
    (split; [split; [done|by intros [|]]|]); (split; [done|eauto]).
Qed.

(** X7: the statuses a handler can answer with: upload 201, 400 or 500;
    benchmark detail 200, 404 or 500; listing 200 or 500; compare 200,
    400, 404 or 500. *)
Theorem handler_status_codes secret r st hdr w' :
  (uploadHandler secret r (serve st hdr) = Some (tt, w') →
   status (resp w') ∈ [Some StatusCreated; Some StatusBadRequest;
                       Some StatusInternalServerError])
  ∧ (showBenchmark r (serve st hdr) = Some (tt, w') →
     status (resp w') ∈ [Some StatusOK; Some StatusNotFound;
                         Some StatusInternalServerError])
  ∧ (listHandler r (serve st hdr) = Some (tt, w') →
     status (resp w') ∈ [Some StatusOK; Some StatusInternalServerError])
  ∧ (compareHandler r (serve st hdr) = Some (tt, w') →
     status (resp w') ∈ [Some StatusOK; Some StatusBadRequest;
                         Some StatusNotFound; Some StatusInternalServerError]).
Proof.
  (split; [|split; [|split]]); unfold_handlers; intros Hrun; run_cases;
    rewrite ?lookupFailureCode_cases; repeat case_match;
    rewrite !elem_of_cons; auto 10.
Qed.

(** X8: when a handler panics: the upload handler exactly when the form
    parses and has no content part; the benchmark-detail handler exactly
    on the empty path; the listing and compare handlers never. *)
Theorem handler_panics secret r w :
  (uploadHandler secret r w = None
   ↔ ParseMultipartForm r = None ∧ FormFile r = None)
  ∧ (showBenchmark r w = None ↔ URL_Path r = "")
  ∧ listHandler r w ≠ None
  ∧ compareHandler r w ≠ None.
Proof.
  split; [split|split; [split|split]].
  - unfold_handlers. intros Hrun.
    repeat (case_match; simplify_eq/=); rewrite ?httpFailf_run in *; done.
  - intros [Hp Hf]. unfold_handlers. by rewrite Hp, Hf.
  - unfold_handlers. intros Hrun.
    destruct (decide (URL_Path r = "")) as [|Hne]; [done|].
    destruct (lastChunk_returns _ Hne) as [chunk Hc]. rewrite Hc in Hrun.
    repeat (case_match; simplify_eq/=); rewrite ?httpFailf_run in *; done.
  - intros Hp. unfold_handlers. by rewrite Hp.
  - unfold_handlers.
    repeat (case_match; simplify_eq/=); rewrite ?httpFailf_run in *; done.
  - unfold_handlers.
    repeat (case_match; simplify_eq/=); rewrite ?httpFailf_run in *; done.
Qed.

(** X9: the listing handler makes exactly one call, for the 100 runs
    before the time of the request, whatever the request; it keeps the
    store as that call leaves it, and answers 500 with the error page when
    the call fails and else 200 with the rendering of the runs it got. *)
Theorem listHandler_lists_100 r st hdr :
  ∃ w' benchmarks err,
    listHandler r (serve st hdr) = Some (tt, w')
    ∧ ListBenchmarks st (Now r) 100 = ((benchmarks, err), store w')
    ∧ trace w' = [CallListBenchmarks (Now r) 100 err]
    ∧ match err with
      | Some e =>
          status (resp w') = Some StatusInternalServerError
          ∧ body (resp w') = tmpl_error ("cannot list benchmarks: " ++ Error e)
      | None =>
          status (resp w') = Some StatusOK
          ∧ body (resp w') = tmpl_listing benchmarks
          ∧ header (resp w') = hdr
      end.
Proof.
  unfold_handlers. simpl.
  destruct (ListBenchmarks st (Now r) 100) as [[benchmarks err] st'].
  destruct err as [e|]; by eexists _, _, _; split; [reflexivity|].
Qed.

(** X10: the upload handler calls the store at most once; when that call
    fails it answers 500 with the error page, and the store is left as
    the failed call left it. *)
Theorem uploadHandler_calls_once secret r st hdr w' :
  uploadHandler secret r (serve st hdr) = Some (tt, w') →
  (trace w' = [] ∧ store w' = st)
  ∨ ∃ content commit id err,
      trace w' = [CallCreateBenchmark content commit id err]
      ∧ CreateBenchmark st content commit = ((id, err), store w')
      ∧ (∀ e, err = Some e →
              status (resp w') = Some StatusInternalServerError
              ∧ body (resp w') = tmpl_error ("cannot upload: " ++ Error e)).
Proof.
  unfold_handlers. intros Hrun.
  repeat (case_match; simplify_eq/=); rewrite ?httpFailf_run in *; simplify_eq/=;
    try (by left); right; eexists _, _, _, _; (split; [reflexivity|]);
    (split; [done|]); by intros ? [= <-].
Qed.

(** X11: only the upload handler creates runs: the traces of the other
    three handlers hold no CreateBenchmark call, and the trace of the
    upload handler holds nothing else. *)
Theorem only_upload_creates secret r st hdr w' :
  (uploadHandler secret r (serve st hdr) = Some (tt, w') →
   Forall (λ e, isCreateCall e = true) (trace w'))
  ∧ (showBenchmark r (serve st hdr) = Some (tt, w')
     ∨ listHandler r (serve st hdr) = Some (tt, w')
     ∨ compareHandler r (serve st hdr) = Some (tt, w') →
     Forall (λ e, isCreateCall e = false) (trace w')).
Proof.
  split.
  - unfold_handlers. intros Hrun. run_cases; by repeat constructor.
  - unfold_handlers. intros [Hrun|[Hrun|Hrun]]; run_cases; by repeat constructor.
Qed.

(** X12: an answer of the benchmark-detail, listing or compare handler
    with an error status is the error page: its headers are those set
    before plus the HTML content type, and its body is the rendering of
    the error template; an answer without an error status leaves the
    headers as they were. *)
Theorem error_answers_are_error_pages r st hdr w' :
  showBenchmark r (serve st hdr) = Some (tt, w')
  ∨ listHandler r (serve st hdr) = Some (tt, w')
  ∨ compareHandler r (serve st hdr) = Some (tt, w') →
  (400 ≤ statusCode (resp w') →
   header (resp w') = errorPageHeader hdr ∧ ∃ msg, body (resp w') = tmpl_error msg)
  ∧ (statusCode (resp w') < 400 → header (resp w') = hdr).
Proof.
  unfold_handlers. intros [Hrun|[Hrun|Hrun]]; run_cases;
    rewrite ?lookupFailureCode_cases; unfold statusCode; simpl;
    repeat case_match; simpl; unfold StatusOK, StatusNotFound,
      StatusInternalServerError, StatusBadRequest;
    (split; [intros ?|intros ?]); try (exfalso; lia); eauto.
Qed.

(** X13: dummy content, that is trimmed content of one to nine bytes
    (with a commit), is answered by a bare 400: no error page, no content
    type, and no store call; whereas empty content gets the error page. *)
Theorem dummy_content_bare_400 secret r st hdr raw :
  ParseMultipartForm r = None →
  FormFile r = Some (raw, None) →
  len (TrimSpace raw) < 10 →
  TrimSpace (Values_Get (Form r) "commit") ≠ "" →
  ∃ w', uploadHandler secret r (serve st hdr) = Some (tt, w')
    ∧ status (resp w') = Some StatusBadRequest
    ∧ trace w' = [] ∧ store w' = st
    ∧ if decide (TrimSpace raw = "")
      then header (resp w') = errorPageHeader hdr
           ∧ body (resp w') = tmpl_error "content is required"
      else header (resp w') = hdr ∧ body (resp w') = "".
Proof.
  intros Hp Hf Hlen Hcommit. unfold_handlers. rewrite Hp, Hf.
  destruct (decide (TrimSpace raw = "")) as [E|E].
  - rewrite E. by eexists; split; [reflexivity|].
  - destruct (Z.eqb_spec (len (TrimSpace raw)) 0) as [E0|_].
    { destruct E. unfold len in E0. by destruct (TrimSpace raw). }
    apply String.eqb_neq in Hcommit. rewrite Hcommit. simpl.
    destruct (Z.ltb_spec (len (TrimSpace raw)) 10); [|exfalso; lia].
    by eexists; split; [reflexivity|].
Qed.

(** X14: httpFailf on a response whose status is already sent does not
    change the status; it still sets the content type and appends the
    error page; on a fresh response the status is the code given.  It
    neither calls nor changes the store. *)
Theorem httpFailf_keeps_sent_status (code : Z) (msg : string) w :
  ∃ w', httpFailf code msg w = Some (tt, w')
    ∧ status (resp w') = Some (default code (status (resp w)))
    ∧ header (resp w') = errorPageHeader (header (resp w))
    ∧ Header_Get (header (resp w')) "Content-Type" = "text/html;charset=utf-8"
    ∧ body (resp w') = body (resp w) ++ tmpl_error msg
    ∧ store w' = store w ∧ trace w' = trace w.
Proof.
  rewrite httpFailf_run. eexists; split; [reflexivity|]. simpl.
  unfold WriteHeader. simpl.
  assert (Header_Get (errorPageHeader (header (resp w))) "Content-Type"
          = "text/html;charset=utf-8") as Hget.
  { unfold Header_Get, errorPageHeader, Header_Set.
    change (CanonicalMIMEHeaderKey "Content-Type") with "Content-Type".
    change (CanonicalMIMEHeaderKey "content-type") with "Content-Type".
    by rewrite lookup_insert_eq. }
  by destruct (status (resp w)).
Qed.

(** X15: trimming is idempotent, so an upload whose content and commit
    are sent already trimmed is served exactly as the one with the white
    space around them. *)
Theorem uploadHandler_trimmed_upload secret r w :
  uploadHandler secret (trimmedUpload r) w = uploadHandler secret r w.
Proof.
  unfold uploadHandler, trimmedUpload. simpl.
  assert (Values_Get (<["commit" := [TrimSpace (Values_Get (Form r) "commit")]]> (Form r))
            "commit" = TrimSpace (Values_Get (Form r) "commit")) as ->.
  { unfold Values_Get at 1. by rewrite lookup_insert_eq. }
  destruct (ParseMultipartForm r); [done|].
  destruct (FormFile r) as [[content [e|]]|]; [done| |done].
  by rewrite !TrimSpace_idempotent.
Qed.

(** X16: what the upload handler stores is a contiguous part of what was
    sent: the content stored lies within the content part, the commit
    stored within the commit field, byte for byte. *)
Theorem stored_upload_is_part_of_request secret r st hdr w' content commit id err :
  uploadHandler secret r (serve st hdr) = Some (tt, w') →
  CallCreateBenchmark content commit id err ∈ trace w' →
  ∃ raw pre post pre' post',
    FormFile r = Some (raw, None)
    ∧ raw = pre ++ content ++ post
    ∧ Values_Get (Form r) "commit" = pre' ++ commit ++ post'.
Proof.
  unfold_handlers. intros Hrun Hin.
  run_cases; rewrite ?elem_of_cons, ?elem_of_nil in Hin; destruct_or?;
    simplify_eq/=;
    match goal with
    | |- ∃ raw _ _ _ _, Some (?c, None) = _ ∧ _ =>
        destruct (TrimSpace_infix c) as (pre & post & Hc);
        destruct (TrimSpace_infix (Values_Get (Form r) "commit"))
          as (pre' & post' & Hcommit);
        by exists c, pre, post, pre', post'
    end.
Qed.

(** X17: content, or a commit, made of ASCII white space only counts as
    missing: the upload is answered 400 and the store is not called. *)
Theorem blank_upload_rejected secret r st hdr raw rerr :
  FormFile r = Some (raw, rerr) →
  forallb asciiSpace (chars raw) = true
  ∨ forallb asciiSpace (chars (Values_Get (Form r) "commit")) = true →
  ∃ w', uploadHandler secret r (serve st hdr) = Some (tt, w')
    ∧ status (resp w') = Some StatusBadRequest
    ∧ (∃ msg, body (resp w') = tmpl_error msg)
    ∧ trace w' = [] ∧ store w' = st.
Proof.
  intros Hf Hblank. unfold_handlers. rewrite Hf.
  destruct (ParseMultipartForm r) as [perr|];
    [by eexists; split; [reflexivity|]; simpl; eauto|].
  destruct rerr as [rerr|]; [by eexists; split; [reflexivity|]; simpl; eauto|].
  destruct (Z.eqb_spec (len (TrimSpace raw)) 0) as [|Hlen];
    [by eexists; split; [reflexivity|]; simpl; eauto|].
  destruct Hblank as [Hraw|Hcommit].
  { rewrite (TrimSpace_all_space raw Hraw) in Hlen. done. }
  rewrite (TrimSpace_all_space _ Hcommit). simpl.
  by eexists; split; [reflexivity|]; simpl; eauto.
Qed.

(** X18: the ids the listing offers, in decimal, are the ids the compare
    handler looks up: with a and b the texts of two int64 values it asks
    the store for the first and, when that one is found, for the second
    (zero included: there is no zero check here). *)
Theorem compareHandler_finds_listed_ids r st hdr x y :
  - 2 ^ 63 ≤ x < 2 ^ 63 → - 2 ^ 63 ≤ y < 2 ^ 63 →
  Values_Get (URL_Query r) "a" = FormatInt x →
  Values_Get (URL_Query r) "b" = FormatInt y →
  ∃ w' a erra st1,
    compareHandler r (serve st hdr) = Some (tt, w')
    ∧ FindBenchmark st x = ((a, erra), st1)
    ∧ head (trace w') = Some (CallFindBenchmark x a erra)
    ∧ (erra = None →
       ∃ b errb st2, FindBenchmark st1 y = ((b, errb), st2)
                     ∧ trace w' !! 1%nat = Some (CallFindBenchmark y b errb)).
Proof.
  intros Hx Hy Ha Hb. unfold_handlers. rewrite Ha, Hb.
  pose proof (FormatInt_non_empty x) as Hnx. pose proof (FormatInt_non_empty y) as Hny.
  apply String.eqb_neq in Hnx, Hny. rewrite Hnx, Hny.
  rewrite !ParseInt_FormatInt by done. simpl.
  destruct (FindBenchmark st x) as [[a erra] st1].
  destruct erra as [erra|];
    [by eexists _, _, _, _; split; [reflexivity|]|].
  simpl. destruct (FindBenchmark st1 y) as [[b errb] st2] eqn:Hfb.
  destruct errb as [errb|].
  { eexists _, _, _, _; split; [reflexivity|]. simpl. repeat split. eauto. }
  simpl. destruct (Compare a b) as [cmp [errc|]];
    (eexists _, _, _, _; split; [reflexivity|]); simpl; repeat split; eauto.
Qed.

(** X19: when the lookup of the benchmark-detail handler fails with an
    error other than ErrNotFound, the answer is the error page with
    status 500, and the text of the error is not shown as it is: it is
    the format given to [fmt.Sprintf], so the page shows what [Sprintf]
    makes of it. *)
Theorem showBenchmark_failure_text_is_format r st hdr chunk bench msg st' :
  lastChunk (URL_Path r) = Some chunk →
  (ParseInt chunk).1 ≠ 0 →
  FindBenchmark st (ParseInt chunk).1 = ((bench, Some (ErrOther msg)), st') →
  ∃ w', showBenchmark r (serve st hdr) = Some (tt, w')
    ∧ status (resp w') = Some StatusInternalServerError
    ∧ header (resp w') = errorPageHeader hdr
    ∧ body (resp w') = tmpl_error (Sprintf msg)
    ∧ trace w' = [CallFindBenchmark (ParseInt chunk).1 bench (Some (ErrOther msg))]
    ∧ store w' = st'.
Proof.
  intros Hc Hid Hf. unfold_handlers. rewrite Hc.
  destruct (ParseInt chunk) as [id perr]. simpl in Hid, Hf.
  destruct (Z.eqb_spec id 0) as [|_]; [done|]. simpl. rewrite Hf.
  by eexists; split; [reflexivity|].
Qed.

End HandlersMore.

(** ** The further properties on the sample data *)

Section MoreSamples.

#[local] Existing Instance plainCollaborators.

Lemma lastChunk_of_joined_path_witness :
  lastChunk ("/benchmarks" ++ "/" ++ "42") = Some "42"
  ∧ lastChunk ("/benchmarks" ++ "/" ++ "42" ++ "/") = Some "42"
  ∧ lastChunk "42" = Some "42"
  ∧ lastChunk ("42" ++ "/") = Some "42".
Proof. apply (lastChunk_of_joined_path "/benchmarks" "42"); [done|reflexivity]. Defined.

Lemma showBenchmark_ignores_one_slash_witness :
  showBenchmark (GET "/benchmarks/1/" []) (serve twoRuns ∅)
  = showBenchmark (GET "/benchmarks/1" []) (serve twoRuns ∅).
Proof.
  apply (showBenchmark_ignores_one_slash (GET "/benchmarks/1" [])
           (GET "/benchmarks/1/" []) (serve twoRuns ∅)); [done| |reflexivity].
  by apply (slash_free_end "/benchmarks/" "1").
Defined.

Lemma showBenchmark_double_slash_not_found_witness :
  ∃ w', showBenchmark (GET "/benchmarks/1//" []) (serve twoRuns ∅) = Some (tt, w')
    ∧ status (resp w') = Some StatusNotFound
    ∧ trace w' = [] ∧ store w' = twoRuns.
Proof.
  apply (showBenchmark_double_slash_not_found (GET "/benchmarks/1//" []) twoRuns ∅).
  left. by exists "/benchmarks/1".
Defined.

Lemma showBenchmark_finds_printed_id_witness :
  ∃ w' bench err,
    showBenchmark (GET "/benchmarks/2" []) (serve twoRuns ∅) = Some (tt, w')
    ∧ trace w' = [CallFindBenchmark 2 bench err]
    ∧ FindBenchmark twoRuns 2 = ((bench, err), store w').
Proof.
  apply (showBenchmark_finds_printed_id (GET "/benchmarks/2" []) twoRuns ∅
           "/benchmarks" 2); [lia | lia | left; reflexivity].
Defined.

Lemma lookup_ids_are_int64_witness :
  ∃ w', compareHandler (GET "/compare/" [("a", ["99999999999999999999"]); ("b", ["x"])])
          (serve twoRuns ∅) = Some (tt, w')
    ∧ trace w' = [CallFindBenchmark 9223372036854775807 noBenchmark (Some ErrNotFound)]
    ∧ - 2 ^ 63 ≤ 9223372036854775807 < 2 ^ 63.
Proof.
  destruct (lookup_ids_are_int64
              (GET "/compare/" [("a", ["99999999999999999999"]); ("b", ["x"])])
              twoRuns ∅) as [_ Hcompare].
  eexists. split; [vm_compute; reflexivity|]. split; [reflexivity|].
  eapply Hcompare; [vm_compute; reflexivity | left].
Defined.

Lemma compareHandler_calls_iff_both_ids_witness :
  ∃ w', compareHandler (GET "/compare/" [("a", ["1"])]) (serve twoRuns ∅) = Some (tt, w')
    ∧ trace w' = []
    ∧ status (resp w') = Some StatusBadRequest ∧ store w' = twoRuns.
Proof.
  destruct (compareHandler_calls_iff_both_ids (GET "/compare/" [("a", ["1"])]) twoRuns ∅)
    as (w' & Hrun & Hiff & H400 & _).
  assert (trace w' = []) as Hnil by (apply Hiff; right; by vm_compute).
  exists w'. split; [done|]. split; [done|]. by apply H400.
Defined.

Lemma handler_status_codes_witness :
  ∃ w', showBenchmark (GET "/benchmarks/7" []) (serve twoRuns ∅) = Some (tt, w')
    ∧ status (resp w') ∈ [Some StatusOK; Some StatusNotFound;
                          Some StatusInternalServerError].
Proof.
  eexists. split; [vm_compute; reflexivity|].
  apply (handler_status_codes "s3cret" (GET "/benchmarks/7" []) twoRuns ∅).
  vm_compute; reflexivity.
Defined.

Lemma handler_panics_witness :
  uploadHandler "s3cret" (POST "/upload" [("commit", ["c0ffee"])] None) (serve twoRuns ∅)
  = None
  ∧ showBenchmark (GET "" []) (serve twoRuns ∅) = None.
Proof.
  split.
  - by apply (handler_panics "s3cret" (POST "/upload" [("commit", ["c0ffee"])] None)
                (serve twoRuns ∅)).
  - by apply (handler_panics "s3cret" (GET "" []) (serve twoRuns ∅)).
Defined.

Lemma uploadHandler_calls_once_witness :
  ∃ w', uploadHandler "s3cret" uploadFoo (serve Down ∅) = Some (tt, w')
    ∧ ((trace w' = [] ∧ store w' = Down)
       ∨ ∃ content commit id err,
           trace w' = [CallCreateBenchmark content commit id err]
           ∧ CreateBenchmark Down content commit = ((id, err), store w')
           ∧ (∀ e, err = Some e →
                   status (resp w') = Some StatusInternalServerError
                   ∧ body (resp w') = tmpl_error ("cannot upload: " ++ Error e))).
Proof.
  eexists. split; [vm_compute; reflexivity|].
  apply (uploadHandler_calls_once "s3cret" uploadFoo Down ∅). vm_compute; reflexivity.
Defined.

Lemma only_upload_creates_witness :
  ∃ w', compareHandler compareOneTwo (serve twoRuns ∅) = Some (tt, w')
    ∧ Forall (λ e, isCreateCall e = false) (trace w').
Proof.
  eexists. split; [vm_compute; reflexivity|].
  apply (only_upload_creates "s3cret" compareOneTwo twoRuns ∅).
  right. right. vm_compute; reflexivity.
Defined.

Lemma error_answers_are_error_pages_witness :
  ∃ w', compareHandler compareOneSeven (serve twoRuns ∅) = Some (tt, w')
    ∧ header (resp w') = errorPageHeader ∅
    ∧ ∃ msg, body (resp w') = tmpl_error msg.
Proof.
  eexists. split; [vm_compute; reflexivity|].
  apply (error_answers_are_error_pages compareOneSeven twoRuns ∅).
  - right. right. vm_compute; reflexivity.
  - by vm_compute.
Defined.

Lemma dummy_content_bare_400_witness :
  ∃ w', uploadHandler "s3cret" uploadDummy (serve twoRuns ∅) = Some (tt, w')
    ∧ status (resp w') = Some StatusBadRequest
    ∧ trace w' = [] ∧ store w' = twoRuns
    ∧ header (resp w') = ∅ ∧ body (resp w') = "".
Proof.
  apply (dummy_content_bare_400 "s3cret" uploadDummy twoRuns ∅ "  dummy  ");
    [reflexivity | reflexivity | by vm_compute | by vm_compute].
Defined.

Lemma uploadHandler_trimmed_upload_witness :
  uploadHandler "s3cret" (trimmedUpload uploadFoo) (serve twoRuns ∅)
  = uploadHandler "s3cret" uploadFoo (serve twoRuns ∅).
Proof. apply (uploadHandler_trimmed_upload "s3cret" uploadFoo (serve twoRuns ∅)). Defined.

Lemma stored_upload_is_part_of_request_witness :
  ∃ raw pre post pre' post',
    FormFile uploadFoo = Some (raw, None)
    ∧ raw = pre ++ "BenchmarkFoo-1 100 10 ns/op" ++ post
    ∧ Values_Get (Form uploadFoo) "commit" = pre' ++ "c0ffee" ++ post'.
Proof.
  eapply (stored_upload_is_part_of_request "s3cret" uploadFoo twoRuns ∅ _ _ _ 3 None).
  - vm_compute; reflexivity.
  - left.
Defined.

Lemma blank_upload_rejected_witness :
  ∃ w', uploadHandler "s3cret"
          (POST "/upload" [("commit", ["c0ffee"])] (Some (String "009" "  ", None)))
          (serve twoRuns ∅) = Some (tt, w')
    ∧ status (resp w') = Some StatusBadRequest
    ∧ (∃ msg, body (resp w') = tmpl_error msg)
    ∧ trace w' = [] ∧ store w' = twoRuns.
Proof.
  apply (blank_upload_rejected "s3cret"
           (POST "/upload" [("commit", ["c0ffee"])] (Some (String "009" "  ", None)))
           twoRuns ∅ (String "009" "  ") None); [reflexivity|].
  left. reflexivity.
Defined.

Lemma compareHandler_finds_listed_ids_witness :
  ∃ w' a erra st1,
    compareHandler compareOneTwo (serve twoRuns ∅) = Some (tt, w')
    ∧ FindBenchmark twoRuns 1 = ((a, erra), st1)
    ∧ head (trace w') = Some (CallFindBenchmark 1 a erra)
    ∧ (erra = None →
       ∃ b errb st2, FindBenchmark st1 2 = ((b, errb), st2)
                     ∧ trace w' !! 1%nat = Some (CallFindBenchmark 2 b errb)).
Proof.
  apply (compareHandler_finds_listed_ids compareOneTwo twoRuns ∅ 1 2);
    [lia | lia | by vm_compute | by vm_compute].
Defined.

Lemma showBenchmark_failure_text_is_format_witness :
  ∃ w', showBenchmark (GET "/benchmarks/1" []) (serve Down ∅) = Some (tt, w')
    ∧ status (resp w') = Some StatusInternalServerError
    ∧ header (resp w') = errorPageHeader ∅
    ∧ body (resp w') = "<div class=error>connection refused</div>"
    ∧ trace w' = [CallFindBenchmark 1 noBenchmark (Some (ErrOther "connection refused"))]
    ∧ store w' = Down.
Proof.
  destruct (showBenchmark_failure_text_is_format (GET "/benchmarks/1" []) Down ∅
              "1" noBenchmark "connection refused" Down)
    as (w' & Hrun & Hrest); [reflexivity | by vm_compute | reflexivity |].
  exists w'. split; [exact Hrun | exact Hrest].
Defined.

End MoreSamples.
